(** * scripts/import-game-files.py: archive import with separator repair

    A shallow embedding of [extract_zip] and [main] from
    [scripts/import-game-files.py], together with a model of the parts of
    the Python 3.11 library on a POSIX host the script calls
    ([str.replace], [str.split], [os.path], [os.mkdir], [os.makedirs],
    [open], [zipfile.ZipFile.extract]).

    Conventions of the model:
    - a Python [str] is a [string]; the two characters the script looks at,
      the backslash and the forward slash, are ASCII and never occur inside
      a multi-byte UTF-8 sequence, so working on bytes agrees with Python;
    - a resolved absolute path is the list of its components, innermost
      first, so the parent directory is the tail and the root is [[]];
      its components are plain names (not empty, [.] or [..]);
    - the file system is a finite map from resolved paths to nodes; there
      are no symbolic links and no permissions;
    - the destination root of [extract_zip] is given resolved; [main]
      passes the absolute paths it builds from the location of the script;
      the paths [main] gets from the command line are strings, resolved
      component by component against the disk;
    - an archive file decodes to its member list when it is opened, and
      reading the bytes of a member does not fail;
    - an exception is a value of [exn]; a computation that may raise
      returns the state it reached together with [Ok v] or [Raise e]. *)

From stdpp Require Import gmap strings list fin_maps pretty.
From Stdlib Require Import Ascii ZArith Lia.

Local Open Scope string_scope.
Local Open Scope list_scope.

(** ** Exceptions and the state-and-exception monad *)

Inductive exn : Type :=
| FileNotFoundError
| NotADirectoryError
| IsADirectoryError
| FileExistsError
| IndexError
| BadZipFile
| SystemExit (code : Z).

Inductive result (A : Type) : Type :=
| Ok (a : A)
| Raise (e : exn).
Arguments Ok {A} a.
Arguments Raise {A} e.

Definition M (S A : Type) : Type := S -> S * result A.

Definition ret {S A} (a : A) : M S A := fun s => (s, Ok a).

Definition raise {S A} (e : exn) : M S A := fun s => (s, Raise e).

Definition bind {S A B} (c : M S A) (k : A -> M S B) : M S B :=
  fun s => match c s with
           | (s', Ok a) => k a s'
           | (s', Raise e) => (s', Raise e)
           end.

Definition gets {S A} (f : S -> A) : M S A := fun s => (s, Ok (f s)).

(** A step that does not touch the state. *)
Definition lift {S A} (r : result A) : M S A := fun s => (s, r).

Notation "x <- c ;; k" := (bind c (fun x => k))
  (at level 100, c at level 99, right associativity).
Notation "c ;;; k" := (bind c (fun _ => k))
  (at level 100, right associativity).

(** [if cond: body] for a body that returns nothing. *)
Definition when {S} (b : bool) (c : M S unit) : M S unit :=
  if b then c else ret tt.

(** ** Strings *)

Definition backslash : ascii := "\"%char.
Definition slash : ascii := "/"%char.

(** [s.replace(old, new)] for one-character [old] and [new]. *)
Fixpoint replace (old new : ascii) (s : string) : string :=
  match s with
  | EmptyString => EmptyString
  | String c s' =>
      String (if Ascii.eqb c old then new else c) (replace old new s')
  end.

(** [s.split(sep)] for a one-character separator. *)
Fixpoint split (sep : ascii) (s : string) : list string :=
  match s with
  | EmptyString => [EmptyString]
  | String c s' =>
      if Ascii.eqb c sep then EmptyString :: split sep s'
      else match split sep s' with
           | [] => [String c EmptyString]
           | w :: ws => String c w :: ws
           end
  end.

(** [s[-1]], which raises [IndexError] on the empty string. *)
Fixpoint last_char (s : string) : option ascii :=
  match s with
  | EmptyString => None
  | String c EmptyString => Some c
  | String _ s' => last_char s'
  end.

Definition startswith (c : ascii) (s : string) : bool :=
  match s with
  | String c' _ => Ascii.eqb c' c
  | EmptyString => false
  end.

Definition endswith (c : ascii) (s : string) : bool :=
  match last_char s with
  | Some c' => Ascii.eqb c' c
  | None => false
  end.

Definition tilde : ascii := "~"%char.

(** [s[1:]]. *)
Definition behead (s : string) : string :=
  match s with EmptyString => EmptyString | String _ s' => s' end.

Definition is_empty (s : string) : bool :=
  match s with EmptyString => true | _ => false end.

(** [s.rstrip(c)] for a one-character [c]. *)
Fixpoint rstrip (c : ascii) (s : string) : string :=
  match s with
  | EmptyString => EmptyString
  | String c' s' =>
      match rstrip c s' with
      | EmptyString => if Ascii.eqb c' c then EmptyString
                       else String c' EmptyString
      | r => String c' r
      end
  end.

(** [(s[:i], s[i:])] where [i] is the index of the first [c] in [s], or
    [len(s)] when there is none. *)
Fixpoint break_at (c : ascii) (s : string) : string * string :=
  match s with
  | EmptyString => (EmptyString, EmptyString)
  | String c' s' =>
      if Ascii.eqb c' c then (EmptyString, s)
      else let '(a, b) := break_at c s' in (String c' a, b)
  end.

(** ** Paths and the file system *)

Abbreviation path := (list string).

Abbreviation payload := (list Byte.byte).

Inductive node : Type :=
| File (content : payload)
| Dir.

Abbreviation FS := (gmap (list string) node).

(** The root directory always exists. *)
Definition lookup_node (fs : FS) (p : path) : option node :=
  match p with
  | [] => Some Dir
  | _ => fs !! p
  end.

(** [os.path.dirname] of a resolved path; the root is its own parent. *)
Definition dirname (p : path) : path := tail p.

Module os.

(** [os.path.exists], [os.path.isdir] and [os.path.isfile] on a resolved
    path. *)
Definition exists_ (p : path) (fs : FS) : bool :=
  match lookup_node fs p with Some _ => true | None => false end.

Definition isdir (p : path) (fs : FS) : bool :=
  match lookup_node fs p with Some Dir => true | _ => false end.

Definition isfile (p : path) (fs : FS) : bool :=
  match lookup_node fs p with Some (File _) => true | _ => false end.

(** [os.mkdir(p)]: the parent must be a directory and [p] must be new. *)
Definition mkdir (p : path) : M FS unit :=
  fun fs =>
    match p with
    | [] => (fs, Raise FileExistsError)
    | _ :: parent =>
        match lookup_node fs parent with
        | None => (fs, Raise FileNotFoundError)
        | Some (File _) => (fs, Raise NotADirectoryError)
        | Some Dir =>
            match fs !! p with
            | Some _ => (fs, Raise FileExistsError)
            | None => (<[p := Dir]> fs, Ok tt)
            end
        end
    end.

(** [os.makedirs(name)] with the default [exist_ok=False]: create the
    missing ancestors, innermost last, then [name] itself.  The recursive
    call swallows [FileExistsError] only. *)
Fixpoint makedirs (name : path) : M FS unit :=
  match name with
  | [] => mkdir []
  | _ :: head =>
      fun fs =>
        if exists_ head fs then mkdir name fs
        else match makedirs head fs with
             | (fs', Ok _) => mkdir name fs'
             | (fs', Raise FileExistsError) => mkdir name fs'
             | (fs', Raise e) => (fs', Raise e)
             end
  end.

(** [open(p, "wb")] followed by writing [data] and closing: creates the
    file or truncates an existing one. *)
Definition write_file (p : path) (data : payload) : M FS unit :=
  fun fs =>
    match p with
    | [] => (fs, Raise IsADirectoryError)
    | _ :: parent =>
        match lookup_node fs parent with
        | None => (fs, Raise FileNotFoundError)
        | Some (File _) => (fs, Raise NotADirectoryError)
        | Some Dir =>
            match fs !! p with
            | Some Dir => (fs, Raise IsADirectoryError)
            | _ => (<[p := File data]> fs, Ok tt)
            end
        end
    end.

End os.

(** ** The archive reader *)

Module zipfile.

(** A [ZipInfo]: the name as stored in the archive, which the reader
    compares with the member's header and the script never changes, the
    [filename] attribute, which the script assigns to, and the member's
    decompressed bytes. *)
Record ZipInfo : Type := mkZipInfo {
  orig_filename : string;
  filename : string;
  data : payload
}.

(** [ZipInfo.is_dir]: [self.filename[-1] == '/']. *)
Definition is_dir (info : ZipInfo) : result bool :=
  match last_char (filename info) with
  | None => Raise IndexError
  | Some c => Ok (Ascii.eqb c slash)
  end.

Definition invalid_path_parts : list string := [""; "."; ".."].

(** The components of [arcname] in [_extract_member]: the name split at
    forward slashes with the empty, [.] and [..] components removed. *)
Definition arcname_parts (name : string) : list string :=
  filter (fun x => x ∉ invalid_path_parts) (split slash name).

(** [os.path.normpath(os.path.join(targetpath, arcname))]. *)
Definition targetpath (dest : path) (name : string) : path :=
  rev (arcname_parts name) ++ dest.

(** [ZipFile.extract(member, path)] for a [ZipInfo] member, that is
    [ZipFile._extract_member]; returns the path written. *)
Definition extract (member : ZipInfo) (dest : path) : M FS path :=
  let target := targetpath dest (filename member) in
  let upperdirs := dirname target in
  present <- gets (os.exists_ upperdirs) ;;
  when (negb present) (os.makedirs upperdirs) ;;;
  d <- lift (is_dir member) ;;
  if (d : bool) then
    isd <- gets (os.isdir target) ;;
    when (negb isd) (os.mkdir target) ;;;
    ret target
  else
    os.write_file target (data member) ;;;
    ret target.

End zipfile.

Import zipfile.

(** ** The host: path resolution, the password database, child processes *)

Record CompletedProcess : Type := mkCompletedProcess {
  returncode : Z;
  proc_stdout : string;
  proc_stderr : string
}.

(** What the script takes from its surroundings.  [read_archive] decodes
    the bytes of an archive file into its member list ([None] for bytes
    that are not a valid archive); [run_node] is
    [subprocess.run(["node", script], capture_output=True, text=True)];
    [strip] is [str.strip]. *)
Record Env : Type := mkEnv {
  cwd : path;
  script_dir : path;
  environ_HOME : option string;
  pw_dir_uid : option string;
  pw_dir_nam : string -> option string;
  read_archive : payload -> option (list ZipInfo);
  run_node : path -> M FS CompletedProcess;
  strip : string -> string
}.

Module posixpath.

(** [os.path.join(a, b)]. *)
Definition join (a b : string) : string :=
  if startswith slash b then b
  else if is_empty a || endswith slash a then a +:+ b
  else a +:+ "/" +:+ b.

(** [os.path.expanduser(path)]. *)
Definition expanduser (env : Env) (p : string) : string :=
  if negb (startswith tilde p) then p
  else
    let '(name, suffix) := break_at slash (behead p) in
    let userhome :=
      if is_empty name then
        match environ_HOME env with
        | Some h => Some h
        | None => pw_dir_uid env
        end
      else pw_dir_nam env name in
    match userhome with
    | None => p
    | Some h =>
        let r := rstrip slash h +:+ suffix in
        if is_empty r then "/" else r
    end.

(** One step of path resolution. *)
Definition enter (cur : path) (c : string) : path :=
  if decide (c = "" \/ c = ".") then cur
  else if decide (c = "..") then tail cur
  else c :: cur.

(** Resolution of the components [comps] starting in directory [cur]:
    every component is looked up in a directory. *)
Fixpoint namei (comps : list string) (cur : path) (fs : FS) : result path :=
  match comps with
  | [] => Ok cur
  | c :: rest =>
      match lookup_node fs cur with
      | None => Raise FileNotFoundError
      | Some (File _) => Raise NotADirectoryError
      | Some Dir => namei rest (enter cur c) fs
      end
  end.

Definition resolve (env : Env) (p : string) (fs : FS) : result path :=
  if is_empty p then Raise FileNotFoundError
  else namei (split slash p) (if startswith slash p then [] else cwd env) fs.

(** [os.stat(p)], as far as the script looks at it. *)
Definition stat (env : Env) (p : string) (fs : FS) : result node :=
  match resolve env p fs with
  | Raise e => Raise e
  | Ok q =>
      match lookup_node fs q with
      | Some n => Ok n
      | None => Raise FileNotFoundError
      end
  end.

Definition isdir (env : Env) (p : string) (fs : FS) : bool :=
  match stat env p fs with Ok Dir => true | _ => false end.

Definition isfile (env : Env) (p : string) (fs : FS) : bool :=
  match stat env p fs with Ok (File _) => true | _ => false end.

End posixpath.

(** [zipfile.ZipFile(zip_path, "r")]: the member list of the archive. *)
Definition ZipFile (env : Env) (zip_path : string) (fs : FS)
  : result (list ZipInfo) :=
  match posixpath.stat env zip_path fs with
  | Raise e => Raise e
  | Ok Dir => Raise IsADirectoryError
  | Ok (File bytes) =>
      match read_archive env bytes with
      | Some members => Ok members
      | None => Raise BadZipFile
      end
  end.

(** ** [extract_zip] *)

(** The objects the loop of [extract_zip] works on: the list
    [z.filelist], which [z.infolist()] returns without copying, and the
    disk.  [returned] records what each call of [z.extract] returned; the
    script drops these values. *)
Record heap : Type := mkHeap {
  filelist : list ZipInfo;
  disk : FS;
  returned : list path
}.

Definition set_filename (name : string) (info : ZipInfo) : ZipInfo :=
  mkZipInfo (orig_filename info) name (data info).

(** [info.filename = info.filename.replace("\\", "/")]. *)
Definition fix_separators (info : ZipInfo) : ZipInfo :=
  set_filename (replace backslash slash (filename info)) info.

(** The loop body, for the object [info] found at position [i] of the
    list:
[[
    info.filename = info.filename.replace("\\", "/")
    z.extract(info, dest)
]]
    The assignment updates the object inside [z.filelist]. *)
Definition loop_body (dest : path) (i : nat) (info : ZipInfo) : M heap unit :=
  fun h =>
    let info' := fix_separators info in
    let members := <[i := info']> (filelist h) in
    match extract info' dest (disk h) with
    | (fs', Ok t) => (mkHeap members fs' (returned h ++ [t]), Ok tt)
    | (fs', Raise e) => (mkHeap members fs' (returned h), Raise e)
    end.

(** [for info in z.infolist(): ...]: the list iterator visits positions
    [i], [i + 1], ... and stops at the first position past the end of
    the list; [count] bounds the number of rounds. *)
Fixpoint for_infolist (dest : path) (count i : nat) : M heap unit :=
  match count with
  | O => ret tt
  | S count' =>
      fun h =>
        match filelist h !! i with
        | None => (h, Ok tt)
        | Some info =>
            (loop_body dest i info ;;; for_infolist dest count' (S i)) h
        end
  end.

Definition extract_loop (dest : path) : M heap unit :=
  fun h => for_infolist dest (length (filelist h)) 0 h.

Definition extract_zip (env : Env) (zip_path : string) (dest : path)
  : M FS nat :=
  fun fs =>
    match ZipFile env zip_path fs with
    | Raise e => (fs, Raise e)
    | Ok members =>
        match extract_loop dest (mkHeap members fs []) with
        | (h, Ok _) => (disk h, Ok (length (filelist h)))
        | (h, Raise e) => (disk h, Raise e)
        end
    end.

(** ** [main] *)

(** The state of a run: the disk, the lines printed so far, and the calls
    of [extract_zip] made so far (archive path and destination root). *)
Record world : Type := mkWorld {
  w_fs : FS;
  w_out : list string;
  w_calls : list (string * path)
}.

Definition print (line : string) : M world unit :=
  fun w => (mkWorld (w_fs w) (w_out w ++ [line]) (w_calls w), Ok tt).

Definition query {A} (f : FS -> A) : M world A :=
  gets (fun w => f (w_fs w)).

Definition on_fs {A} (c : M FS A) : M world A :=
  fun w => match c (w_fs w) with
           | (fs', r) => (mkWorld fs' (w_out w) (w_calls w), r)
           end.

(** How the process ends: [sys.exit(n)] gives status [n], any other
    uncaught exception gives status 1. *)
Definition exit_status {A} (r : result A) : Z :=
  match r with
  | Ok _ => 0
  | Raise (SystemExit n) => n
  | Raise _ => 1
  end.

Definition nl : string := String (ascii_of_nat 10) EmptyString.

Definition MAIN_ZIP : string := "settlers4-assets.zip".
Definition HD_ZIP : string := "settlers4-hd-assets.zip".

Section Script.

Variable env : Env.

Definition SCRIPT_DIR : path := script_dir env.
Definition PROJECT_ROOT : path := dirname SCRIPT_DIR.
Definition PUBLIC_DIR : path := "public" :: PROJECT_ROOT.
Definition SIEDLER_DIR : path := "Siedler4" :: PUBLIC_DIR.

Definition call_extract_zip (zip_path : string) (dest : path) : M world nat :=
  fun w =>
    on_fs (extract_zip env zip_path dest)
          (mkWorld (w_fs w) (w_out w) (w_calls w ++ [(zip_path, dest)])).

Definition main (argv : list string) : M world unit :=
  when (length argv <? 2)%nat
    (print "Usage: python3 scripts/import-game-files.py <directory>" ;;;
     print "" ;;;
     print ("  Looks for " +:+ MAIN_ZIP +:+ " (required) and " +:+ HD_ZIP
            +:+ " (optional)") ;;;
     print "  in the given directory and extracts them into public/Siedler4/." ;;;
     raise (SystemExit 1)) ;;;
  let src_dir := posixpath.expanduser env (nth 1 argv "") in
  is_directory <- query (posixpath.isdir env src_dir) ;;
  when (negb is_directory)
    (print ("Not a directory: " +:+ src_dir) ;;;
     raise (SystemExit 1)) ;;;
  let main_zip := posixpath.join src_dir MAIN_ZIP in
  let hd_zip := posixpath.join src_dir HD_ZIP in
  has_main <- query (posixpath.isfile env main_zip) ;;
  when (negb has_main)
    (print (MAIN_ZIP +:+ " not found in " +:+ src_dir) ;;;
     raise (SystemExit 1)) ;;;
  print ("Extracting " +:+ MAIN_ZIP +:+ " -> public/Siedler4/") ;;;
  count <- call_extract_zip main_zip PUBLIC_DIR ;;
  print ("  " +:+ pretty count +:+ " entries extracted") ;;;
  has_hd <- query (posixpath.isfile env hd_zip) ;;
  when has_hd
    (print ("Extracting " +:+ HD_ZIP +:+ " -> public/Siedler4/") ;;;
     count <- call_extract_zip hd_zip SIEDLER_DIR ;;
     print ("  " +:+ pretty count +:+ " entries extracted")) ;;;
  let gh6 := "2.gh6" :: "Gfx" :: SIEDLER_DIR in
  has_gh6 <- query (os.isfile gh6) ;;
  (if (has_gh6 : bool)
   then print (nl +:+ "  [OK] Landscape texture (Gfx/2.gh6) found")
   else print (nl +:+ "  [!!] Gfx/2.gh6 missing - map rendering will fail")) ;;;
  print "" ;;;
  print "Generating file-list.txt..." ;;;
  let gen_script := "generate-file-list.js" :: SCRIPT_DIR in
  result <- on_fs (run_node env gen_script) ;;
  (if (returncode result =? 0)%Z
   then print ("  " +:+ strip env (proc_stdout result))
   else (print ("  Failed: " +:+ strip env (proc_stderr result)) ;;;
         raise (SystemExit 1))) ;;;
  print (nl +:+ "Done!").

End Script.

(** ** Vocabulary of the proofs *)

(** The loop of [extract_zip] seen as a recursion over the member list:
    the disk reached, the values returned by the calls that succeeded, and
    how the loop ended. *)
Fixpoint extract_members (dest : path) (members : list ZipInfo) (fs : FS)
  : FS * list path * result unit :=
  match members with
  | [] => (fs, [], Ok tt)
  | info :: rest =>
      match extract (fix_separators info) dest fs with
      | (fs', Ok t) =>
          match extract_members dest rest fs' with
          | (fs'', ts, r) => (fs'', t :: ts, r)
          end
      | (fs', Raise e) => (fs', [], Raise e)
      end
  end.

(** Every node other than the root sits in a directory, and the map holds
    no entry for the root. *)
Definition wf (fs : FS) : Prop :=
  forall q n, fs !! q = Some n -> q <> [] /\ lookup_node fs (dirname q) = Some Dir.

(** A member that [extract] treats as a plain file. *)
Definition is_file_member (info : ZipInfo) : bool :=
  match is_dir info with Ok false => true | _ => false end.

(** The target of a member once its separators are repaired. *)
Definition target_of (dest : path) (info : ZipInfo) : path :=
  targetpath dest (replace backslash slash (filename info)).

(** The content the last plain-file member of [members] aimed at [q]
    carries, if there is one. *)
Fixpoint last_write (dest : path) (members : list ZipInfo) (q : path)
  : option payload :=
  match members with
  | [] => None
  | info :: rest =>
      match last_write dest rest q with
      | Some d => Some d
      | None =>
          if is_file_member (fix_separators info)
             && bool_decide (target_of dest info = q)
          then Some (data info) else None
      end
  end.

(** Where a path would land if its [..] components were followed instead
    of dropped: plain resolution of [name] from directory [dest]. *)
Definition naive_target (dest : path) (name : string) : path :=
  foldl posixpath.enter dest (split slash name).

Definition escapes (dest : path) (name : string) : bool :=
  negb (bool_decide (dest `suffix_of` naive_target dest name)).

Definition no_backslash (c : string) : Prop :=
  ~ In backslash (String.list_ascii_of_string c).

(** A disk on which [member] is already in place: its parent is a
    directory and its target has the right kind. *)
Definition settled (member : ZipInfo) (dest : path) (fs : FS) : Prop :=
  let target := targetpath dest (filename member) in
  lookup_node fs (dirname target) = Some Dir /\
  match is_dir member with
  | Ok true => lookup_node fs target = Some Dir
  | Ok false => target <> [] /\ exists d, fs !! target = Some (File d)
  | Raise _ => False
  end.

(** The disk after writing [member] again over a disk it is settled on. *)
Definition overwrite (member : ZipInfo) (dest : path) (fs : FS) : FS :=
  if is_file_member member
  then <[targetpath dest (filename member) := File (data member)]> fs
  else fs.

(** What one call of [extract] may change at path [q]: nothing, a new
    directory at the target or above, or the member's own file. *)
Definition step_change (member : ZipInfo) (dest : path) (fs fs' : FS)
    (r : result path) (q : path) : Prop :=
  let target := targetpath dest (filename member) in
  fs' !! q = fs !! q \/
  (fs !! q = None /\ fs' !! q = Some Dir /\ q `suffix_of` target /\ q <> [] /\
   (q = target -> is_dir member = Ok true)) \/
  (q = target /\ q <> [] /\ r = Ok target /\ is_dir member = Ok false /\
   fs' !! q = Some (File (data member)) /\ fs !! q <> Some Dir).

(** [fs'] keeps every node of [fs] with its kind: directories stay
    directories and files stay files, possibly with new content. *)
Definition kind_le (fs fs' : FS) : Prop :=
  forall q,
    (fs !! q = Some Dir -> fs' !! q = Some Dir) /\
    (forall d, fs !! q = Some (File d) -> exists d', fs' !! q = Some (File d')).

(** Writing all plain-file members of a list, in order. *)
Definition overwrite_all (dest : path) (members : list ZipInfo) (fs : FS)
  : FS :=
  foldl (fun acc info => overwrite (fix_separators info) dest acc) fs members.

(** A member is in place on [fs]: its parent is a directory, and the
    target is a directory for a member whose repaired name ends in a
    slash and a file otherwise. *)
Definition materialized (dest : path) (info : ZipInfo) (fs : FS) : Prop :=
  let name := replace backslash slash (filename info) in
  lookup_node fs (dirname (targetpath dest name)) = Some Dir /\
  if endswith slash name
  then lookup_node fs (targetpath dest name) = Some Dir
  else exists d, fs !! targetpath dest name = Some (File d).

(** A decision procedure for [wf]. *)
Definition wf_check (fs : FS) : bool :=
  bool_decide
    (map_Forall (fun q _ => q <> [] /\ os.isdir (dirname q) fs = true) fs).

(** ** A small host for the examples *)

Definition bytes_of (s : string) : payload := String.list_byte_of_string s.

Definition member (name content : string) : ZipInfo :=
  mkZipInfo name name (bytes_of content).

Definition assets_members : list ZipInfo :=
  [ member "Gfx\2.gh6" "texture";
    member "a/b.txt" "first";
    member "c\d.txt" "cd";
    member "Snd/" "";
    member "a\b.txt" "second" ].

Definition evil_members : list ZipInfo := [ member "../../evil.txt" "x" ].

(** The archive files of the examples hold a tag instead of compressed
    bytes. *)
Definition demo_read_archive (bytes : payload) : option (list ZipInfo) :=
  let tag := String.string_of_list_byte bytes in
  if decide (tag = "assets") then Some assets_members
  else if decide (tag = "evil") then Some evil_members
  else if decide (tag = "empty") then Some []
  else None.

Definition demo_env : Env :=
  mkEnv ["me"; "home"] ["scripts"; "proj"; "home"] (Some "/home/me") None
        (fun _ => None) demo_read_archive
        (fun _ fs => (fs, Ok (mkCompletedProcess 0 "5 files" "")))
        (fun s => s).

Definition demo_fs : FS :=
  list_to_map
    [ (["home"], Dir);
      (["me"; "home"], Dir);
      (["zips"; "me"; "home"], Dir);
      (["settlers4-assets.zip"; "zips"; "me"; "home"], File (bytes_of "assets"));
      (["evil.zip"; "zips"; "me"; "home"], File (bytes_of "evil"));
      (["empty.zip"; "zips"; "me"; "home"], File (bytes_of "empty"));
      (["broken"; "me"; "home"], Dir);
      (["settlers4-assets.zip"; "broken"; "me"; "home"], File (bytes_of "junk"));
      (["settlers4-hd-assets.zip"; "broken"; "me"; "home"], File (bytes_of "assets"));
      (["proj"; "home"], Dir);
      (["scripts"; "proj"; "home"], Dir) ].

Definition demo_dest : path := ["public"; "proj"; "home"].

(** What [makedirs name] may change: it only adds directories, at
    [name] and above. *)
Definition adds_dirs (name : path) (fs fs' : FS) : Prop :=
  forall q, fs' !! q = fs !! q \/
            (fs !! q = None /\ fs' !! q = Some Dir /\
             q `suffix_of` name /\ q <> []).

(** Outside the destination root a run only adds missing directories
    above the root. *)
Definition outside_untouched (dest : path) (fs fs' : FS) : Prop :=
  forall q, ~ dest `suffix_of` q ->
    fs' !! q = fs !! q \/
    (fs !! q = None /\ fs' !! q = Some Dir /\ q `suffix_of` dest).

(** Whatever a run changes lies above the root or has a name without
    backslash below it. *)
Definition changes_repaired (dest : path) (fs fs' : FS) : Prop :=
  forall q, fs' !! q = fs !! q \/ q `suffix_of` dest \/
            exists k, q = k ++ dest /\ Forall no_backslash k.

(** The path itself and the directories above it, and the directories
    above it only. *)
Fixpoint suffixes (p : path) : list path :=
  p :: match p with
       | [] => []
       | _ :: q => suffixes q
       end.

Definition ancestors (p : path) : list path :=
  match p with
  | [] => []
  | _ :: q => suffixes q
  end.

(** A member list without clashes: no empty name, no member beneath a
    plain file, and no directory member at the target of a plain file. *)
Definition consistent (dest : path) (members : list ZipInfo) : Prop :=
  Forall (fun m => filename m <> "") members /\
  Forall (fun f =>
    is_file_member (fix_separators f) = true ->
    Forall (fun m =>
      (target_of dest f ∉ ancestors (target_of dest m)) /\
      (is_file_member (fix_separators m) = false ->
       target_of dest m <> target_of dest f)) members) members.

(** A disk that stands in the way of no member: no file where a member
    needs a directory, and no directory where a member puts a file. *)
Definition accepts (dest : path) (members : list ZipInfo) (fs : FS) : Prop :=
  Forall (fun m =>
    Forall (fun q => os.isfile q fs = false) (ancestors (target_of dest m)) /\
    (is_file_member (fix_separators m) = true ->
     os.isdir (target_of dest m) fs = false) /\
    (is_file_member (fix_separators m) = false ->
     os.isfile (target_of dest m) fs = false)) members.

#[global] Instance consistent_dec dest members :
  Decision (consistent dest members).
Proof. unfold consistent. apply _. Defined.

#[global] Instance accepts_dec dest members fs :
  Decision (accepts dest members fs).
Proof. unfold accepts. apply _. Defined.

(** [main] from the check of the critical file on. *)
Definition main_verify_and_index (env : Env) : M world unit :=
  let gh6 := "2.gh6" :: "Gfx" :: SIEDLER_DIR env in
  has_gh6 <- query (os.isfile gh6) ;;
  (if (has_gh6 : bool)
   then print (nl +:+ "  [OK] Landscape texture (Gfx/2.gh6) found")
   else print (nl +:+ "  [!!] Gfx/2.gh6 missing - map rendering will fail")) ;;;
  print "" ;;;
  print "Generating file-list.txt..." ;;;
  let gen_script := "generate-file-list.js" :: SCRIPT_DIR env in
  result <- on_fs (run_node env gen_script) ;;
  (if (returncode result =? 0)%Z
   then print ("  " +:+ strip env (proc_stdout result))
   else (print ("  Failed: " +:+ strip env (proc_stderr result)) ;;;
         raise (SystemExit 1))) ;;;
  print (nl +:+ "Done!").

(** [main] from the test for the optional archive on. *)
Definition main_from_hd (env : Env) (src_dir : string) : M world unit :=
  let hd_zip := posixpath.join src_dir HD_ZIP in
  has_hd <- query (posixpath.isfile env hd_zip) ;;
  when has_hd
    (print ("Extracting " +:+ HD_ZIP +:+ " -> public/Siedler4/") ;;;
     count <- call_extract_zip env hd_zip (SIEDLER_DIR env) ;;
     print ("  " +:+ pretty count +:+ " entries extracted")) ;;;
  main_verify_and_index env.

Definition usage : list string :=
  [ "Usage: python3 scripts/import-game-files.py <directory>";
    "";
    "  Looks for " +:+ MAIN_ZIP +:+ " (required) and " +:+ HD_ZIP
      +:+ " (optional)";
    "  in the given directory and extracts them into public/Siedler4/." ].

(** ** A second host for the examples *)

Definition clash_members : list ZipInfo :=
  [ member "a\b.txt" "one";
    member "a/b.txt/c" "two";
    member "z.txt" "three" ].

Definition main_members : list ZipInfo :=
  [ member "Siedler4\Gfx\2.gh6" "texture";
    member "Siedler4\Snd/" "";
    member "readme.txt" "hello" ].

Definition hd_members : list ZipInfo :=
  [ member "Gfx\2.gh6" "hd texture";
    member "Gfx\3.gh6" "more" ].

Definition import_read_archive (bytes : payload) : option (list ZipInfo) :=
  let tag := String.string_of_list_byte bytes in
  if decide (tag = "main") then Some main_members
  else if decide (tag = "hd") then Some hd_members
  else if decide (tag = "clash") then Some clash_members
  else None.

(** An indexer that writes nothing and reports [code]. *)
Definition import_env (code : Z) : Env :=
  mkEnv ["me"; "home"] ["scripts"; "proj"; "home"] (Some "/home/me") None
        (fun _ => None) import_read_archive
        (fun _ fs => (fs, Ok (mkCompletedProcess code "3 files" "no node")))
        (fun s => s).

Definition import_fs : FS :=
  list_to_map
    [ (["home"], Dir);
      (["me"; "home"], Dir);
      (["both"; "me"; "home"], Dir);
      (["settlers4-assets.zip"; "both"; "me"; "home"], File (bytes_of "main"));
      (["settlers4-hd-assets.zip"; "both"; "me"; "home"], File (bytes_of "hd"));
      (["only"; "me"; "home"], Dir);
      (["settlers4-assets.zip"; "only"; "me"; "home"], File (bytes_of "main"));
      (["bad"; "me"; "home"], Dir);
      (["settlers4-assets.zip"; "bad"; "me"; "home"], File (bytes_of "clash"));
      (["settlers4-hd-assets.zip"; "bad"; "me"; "home"], File (bytes_of "hd"));
      (["notes.txt"; "me"; "home"], File (bytes_of "keep me"));
      (["proj"; "home"], Dir);
      (["scripts"; "proj"; "home"], Dir) ].

(** The same archive in the two conventions. *)
Definition windows_members : list ZipInfo :=
  [ member "Gfx\2.gh6" "texture"; member "Map\a\b.map" "map" ].

Definition posix_members : list ZipInfo :=
  [ member "Gfx/2.gh6" "texture"; member "Map/a/b.map" "map" ].

Definition convention_env : Env :=
  mkEnv ["me"; "home"] ["scripts"; "proj"; "home"] (Some "/home/me") None
        (fun _ => None)
        (fun bytes =>
           let tag := String.string_of_list_byte bytes in
           if decide (tag = "windows") then Some windows_members
           else if decide (tag = "posix") then Some posix_members
           else None)
        (fun _ fs => (fs, Ok (mkCompletedProcess 0 "" "")))
        (fun s => s).

Definition convention_fs : FS :=
  list_to_map
    [ (["home"], Dir);
      (["me"; "home"], Dir);
      (["windows.zip"; "me"; "home"], File (bytes_of "windows"));
      (["posix.zip"; "me"; "home"], File (bytes_of "posix")) ].

(** ** Hosts for the examples of home-directory expansion *)

(** A host on which the home directory of the invoking user is not
    known: [HOME] is not set and the password database has no entry. *)
Definition homeless_env : Env :=
  mkEnv ["me"; "home"] ["scripts"; "proj"; "home"] None None
        (fun _ => None) demo_read_archive
        (fun _ fs => (fs, Ok (mkCompletedProcess 0 "" "")))
        (fun s => s).

(** A host with a second user, [bob], in the password database. *)
Definition shared_env : Env :=
  mkEnv ["me"; "home"] ["scripts"; "proj"; "home"] (Some "/home/me") None
        (fun name => if decide (name = "bob") then Some "/home/bob" else None)
        demo_read_archive
        (fun _ fs => (fs, Ok (mkCompletedProcess 0 "" "")))
        (fun s => s).

(** A disk with a directory named [~] in the working directory, and with
    the home directory of [bob]; the home directory of the invoking user
    holds no archive. *)
Definition shared_fs : FS :=
  list_to_map
    [ (["home"], Dir);
      (["me"; "home"], Dir);
      (["~"; "me"; "home"], Dir);
      (["zips"; "~"; "me"; "home"], Dir);
      (["settlers4-assets.zip"; "zips"; "~"; "me"; "home"],
       File (bytes_of "empty"));
      (["bob"; "home"], Dir);
      (["zips"; "bob"; "home"], Dir);
      (["settlers4-assets.zip"; "zips"; "bob"; "home"],
       File (bytes_of "empty"));
      (["proj"; "home"], Dir);
      (["scripts"; "proj"; "home"], Dir) ].

(** The exceptions [extract_zip] can end with. *)
Definition extraction_errors : list exn :=
  [FileNotFoundError; NotADirectoryError; IsADirectoryError; FileExistsError;
   IndexError; BadZipFile].

(** ** The loop and the list recursion agree *)

Lemma for_infolist_spec dest todo : forall done fs log,
  exists todo',
    length todo' = length todo /\
    for_infolist dest (length todo) (length done)
                 (mkHeap (done ++ todo) fs log)
    = match extract_members dest todo fs with
      | (fs', ts, r) => (mkHeap (done ++ todo') fs' (log ++ ts), r)
      end.
Proof.
  induction todo as [|info rest IH]; intros done fs log.
  - exists []. split; [reflexivity|]. cbn. unfold ret. by rewrite !app_nil_r.
  - cbn [length for_infolist extract_members filelist].
    rewrite list_lookup_middle by reflexivity.
    unfold bind at 1. unfold loop_body at 1. cbn [filelist disk returned].
    destruct (extract (fix_separators info) dest fs) as [fs1 [t|e]] eqn:Hstep.
    + replace (<[length done:=fix_separators info]> (done ++ info :: rest))
        with ((done ++ [fix_separators info]) ++ rest).
      2:{ rewrite insert_app_r_alt by lia. rewrite Nat.sub_diag. cbn.
          by rewrite <- app_assoc. }
      replace (S (length done)) with (length (done ++ [fix_separators info]))
        by (rewrite length_app; cbn; lia).
      destruct (IH (done ++ [fix_separators info]) fs1 (log ++ [t]))
        as (todo' & Hlen & ->).
      exists (fix_separators info :: todo'). split; [cbn; lia|].
      destruct (extract_members dest rest fs1) as [[fs2 ts] r].
      by rewrite <- !app_assoc.
    + exists (fix_separators info :: rest). split; [reflexivity|].
      rewrite insert_app_r_alt by lia. rewrite Nat.sub_diag. cbn.
      by rewrite app_nil_r.
Qed.

Lemma extract_loop_spec dest members fs :
  exists members',
    length members' = length members /\
    extract_loop dest (mkHeap members fs [])
    = match extract_members dest members fs with
      | (fs', ts, r) => (mkHeap members' fs' ts, r)
      end.
Proof.
  destruct (for_infolist_spec dest members [] fs []) as (m' & Hlen & Heq).
  exists m'. split; [done|]. unfold extract_loop. cbn in *. exact Heq.
Qed.

Lemma extract_zip_spec env zip_path dest fs members :
  ZipFile env zip_path fs = Ok members ->
  extract_zip env zip_path dest fs
  = match extract_members dest members fs with
    | (fs', _, Ok _) => (fs', Ok (length members))
    | (fs', _, Raise e) => (fs', Raise e)
    end.
Proof.
  intros Hopen. unfold extract_zip. rewrite Hopen.
  destruct (extract_loop_spec dest members fs) as (m' & Hlen & ->).
  destruct (extract_members dest members fs) as [[fs' ts] [[]|e]]; cbn;
    by rewrite ?Hlen.
Qed.

(** ** File-system primitives *)

Lemma lookup_node_cons fs c p : lookup_node fs (c :: p) = fs !! (c :: p).
Proof. reflexivity. Qed.

Lemma lookup_node_insert_ne fs p n q :
  p <> q -> lookup_node (<[p := n]> fs) q = lookup_node fs q.
Proof.
  intros Hne. destruct q; [reflexivity|]. cbn. by rewrite lookup_insert_ne.
Qed.

Lemma cons_ne_tail {A} (x : A) (l : list A) : x :: l <> l.
Proof.
  intros H. apply (f_equal length) in H. cbn in H. lia.
Qed.

Lemma wf_insert fs c p n :
  wf fs -> lookup_node fs p = Some Dir ->
  (n = Dir \/ fs !! (c :: p) <> Some Dir) ->
  wf (<[c :: p := n]> fs).
Proof.
  intros Hwf Hp Hn q m Hq.
  destruct (decide (c :: p = q)) as [<-|Hne].
  - split; [done|]. cbn. rewrite lookup_node_insert_ne; [done|apply cons_ne_tail].
  - rewrite lookup_insert_ne in Hq by done.
    destruct (Hwf q m Hq) as [Hq0 Hpar]. split; [done|].
    destruct (decide (c :: p = dirname q)) as [Heq|Hne'].
    + rewrite <- Heq in *. cbn in Hpar. cbn. rewrite lookup_insert_eq.
      destruct Hn as [->|Hn]; [done|]. by destruct Hn.
    + by rewrite lookup_node_insert_ne.
Qed.

(** [mkdir] either fails and leaves the disk alone, or adds one
    directory whose parent is a directory. *)
Lemma mkdir_cases p fs :
  (exists e, os.mkdir p fs = (fs, Raise e)) \/
  (exists c h, p = c :: h /\ lookup_node fs h = Some Dir /\ fs !! p = None /\
               os.mkdir p fs = (<[p := Dir]> fs, Ok tt)).
Proof.
  unfold os.mkdir. destruct p as [|c h]; [left; eexists; reflexivity|].
  destruct (lookup_node fs h) as [[d|]|] eqn:Hh; try (left; eexists; reflexivity).
  destruct (fs !! (c :: h)) eqn:Hp; [left; eexists; reflexivity|].
  right. by exists c, h.
Qed.

Lemma write_file_cases p d fs :
  (exists e, os.write_file p d fs = (fs, Raise e)) \/
  (exists c h, p = c :: h /\ lookup_node fs h = Some Dir /\
               fs !! p <> Some Dir /\
               os.write_file p d fs = (<[p := File d]> fs, Ok tt)).
Proof.
  unfold os.write_file. destruct p as [|c h]; [left; eexists; reflexivity|].
  destruct (lookup_node fs h) as [[d'|]|] eqn:Hh;
    try (left; eexists; reflexivity).
  destruct (fs !! (c :: h)) as [[d'|]|] eqn:Hp;
    try (left; eexists; reflexivity);
    right; exists c, h; by rewrite ?Hp.
Qed.

Lemma adds_dirs_refl name fs : adds_dirs name fs fs.
Proof. intros q. by left. Qed.

Lemma adds_dirs_mkdir name p fs :
  p `suffix_of` name -> adds_dirs name fs (os.mkdir p fs).1.
Proof.
  intros Hsuf q.
  destruct (mkdir_cases p fs) as [[e ->]|(c & h & -> & Hh & Hp & ->)];
    [by left|]. cbn.
  destruct (decide (c :: h = q)) as [<-|Hne].
  - right. by rewrite lookup_insert_eq.
  - left. by rewrite lookup_insert_ne.
Qed.

Lemma adds_dirs_trans name fs1 fs2 fs3 :
  adds_dirs name fs1 fs2 -> adds_dirs name fs2 fs3 -> adds_dirs name fs1 fs3.
Proof.
  intros H12 H23 q.
  destruct (H12 q) as [E1|(E1 & E1' & S1 & N1)],
           (H23 q) as [E2|(E2 & E2' & S2 & N2)].
  - left. congruence.
  - right. repeat split; try done. congruence.
  - right. repeat split; try done. congruence.
  - congruence.
Qed.

Lemma adds_dirs_weaken c name fs fs' :
  adds_dirs name fs fs' -> adds_dirs (c :: name) fs fs'.
Proof.
  intros H q. destruct (H q) as [E|(E & E' & Hs & Hn)]; [by left|].
  right. repeat split; try done. by apply suffix_cons_r.
Qed.

Lemma makedirs_adds name fs : adds_dirs name fs (os.makedirs name fs).1.
Proof.
  revert fs. induction name as [|c head IH]; intros fs.
  - apply (adds_dirs_mkdir [] []). done.
  - cbn [os.makedirs]. destruct (os.exists_ head fs).
    + by apply adds_dirs_mkdir.
    + specialize (IH fs).
      destruct (os.makedirs head fs) as [fs1 [[]|e]]; cbn in IH.
      * eapply adds_dirs_trans; [by apply adds_dirs_weaken|].
        by apply adds_dirs_mkdir.
      * destruct e; try (by apply adds_dirs_weaken).
        eapply adds_dirs_trans; [by apply adds_dirs_weaken|].
        by apply adds_dirs_mkdir.
Qed.

(** On a well-formed disk, [makedirs] of a missing directory either
    creates it or fails without having changed anything. *)
Lemma makedirs_wf name : forall fs,
  wf fs -> lookup_node fs name = None ->
  match os.makedirs name fs with
  | (fs', Ok _) => wf fs' /\ lookup_node fs' name = Some Dir
  | (fs', Raise _) => fs' = fs
  end.
Proof.
  induction name as [|c head IH]; intros fs Hwf Hmiss; [done|].
  cbn [os.makedirs]. unfold os.exists_.
  assert (Hmk : forall fs1, wf fs1 -> lookup_node fs1 head = Some Dir ->
            fs1 !! (c :: head) = None ->
            os.mkdir (c :: head) fs1 = (<[c :: head := Dir]> fs1, Ok tt)).
  { intros fs1 _ Hh Hp. unfold os.mkdir. by rewrite Hh, Hp. }
  destruct (lookup_node fs head) as [[d|]|] eqn:Hh.
  - unfold os.mkdir. by rewrite Hh.
  - rewrite Hmk by done. split.
    + apply wf_insert; auto.
    + cbn. by rewrite lookup_insert_eq.
  - pose proof (IH fs Hwf Hh) as Hrec.
    pose proof (makedirs_adds head fs) as Hadd.
    destruct (os.makedirs head fs) as [fs1 [[]|e]]; cbn in Hadd.
    + destruct Hrec as [Hwf1 Hh1].
      assert (fs1 !! (c :: head) = None) as Hp1.
      { destruct (Hadd (c :: head)) as [->|(_ & _ & Hs & _)]; [done|].
        by apply suffix_cons_not in Hs. }
      rewrite Hmk by done. split.
      * apply wf_insert; auto.
      * cbn. by rewrite lookup_insert_eq.
    + subst fs1. destruct e; try done.
      unfold os.mkdir. by rewrite Hh.
Qed.

(** ** One call of [extract] *)

Lemma extract_unfold member dest fs :
  extract member dest fs =
  let target := targetpath dest (filename member) in
  match (if os.exists_ (dirname target) fs then (fs, Ok tt)
         else os.makedirs (dirname target) fs) with
  | (fs1, Raise e) => (fs1, Raise e)
  | (fs1, Ok _) =>
      match is_dir member with
      | Raise e => (fs1, Raise e)
      | Ok true =>
          if os.isdir target fs1 then (fs1, Ok target)
          else match os.mkdir target fs1 with
               | (fs2, Ok _) => (fs2, Ok target)
               | (fs2, Raise e) => (fs2, Raise e)
               end
      | Ok false =>
          match os.write_file target (data member) fs1 with
          | (fs2, Ok _) => (fs2, Ok target)
          | (fs2, Raise e) => (fs2, Raise e)
          end
      end
  end.
Proof.
  unfold extract, bind, gets, lift, when, ret. cbn.
  destruct (os.exists_ _ fs); cbn;
    [|destruct (os.makedirs _ fs) as [fs1 [[]|]]; [|done]];
    (destruct (is_dir member) as [[]|]; cbn; [| |done];
     [ destruct (os.isdir _ _); cbn; [done|];
       by destruct (os.mkdir _ _) as [? [[]|]]
     | by destruct (os.write_file _ _ _) as [? [[]|]] ]).
Qed.

Lemma step_change_of_adds member dest fs fs' r q :
  adds_dirs (dirname (targetpath dest (filename member))) fs fs' ->
  step_change member dest fs fs' r q.
Proof.
  intros H. destruct (H q) as [E|(E & E' & Hs & Hne)]; [by left|].
  right; left. repeat split; try done.
  - destruct (targetpath dest (filename member)); [done|].
    by apply suffix_cons_r.
  - intros ->. destruct (targetpath dest (filename member)); [done|].
    by apply suffix_cons_not in Hs.
Qed.

Lemma step_change_of_adds_dir member dest fs fs' r q :
  is_dir member = Ok true ->
  adds_dirs (targetpath dest (filename member)) fs fs' ->
  step_change member dest fs fs' r q.
Proof.
  intros Hd H. destruct (H q) as [E|(E & E' & Hs & Hne)]; [by left|].
  right; left. by repeat split.
Qed.

Lemma adds_dirs_dirname p fs fs' :
  adds_dirs (dirname p) fs fs' -> adds_dirs p fs fs'.
Proof.
  destruct p as [|c p]; [done|]. apply adds_dirs_weaken.
Qed.

(** The changes of one call, on any disk. *)
Lemma extract_frame member dest fs fs' r :
  extract member dest fs = (fs', r) ->
  forall q, step_change member dest fs fs' r q.
Proof.
  rewrite extract_unfold. cbn zeta.
  set (target := targetpath dest (filename member)).
  intros Hrun q.
  assert (exists fs1 r1,
    (if os.exists_ (dirname target) fs then (fs, Ok tt)
     else os.makedirs (dirname target) fs) = (fs1, r1) /\
    adds_dirs (dirname target) fs fs1) as (fs1 & r1 & Hpre & Hadd).
  { destruct (os.exists_ (dirname target) fs).
    - eexists _, _. split; [done|]. apply adds_dirs_refl.
    - pose proof (makedirs_adds (dirname target) fs) as Hm.
      destruct (os.makedirs (dirname target) fs) as [fs1 r1].
      eexists _, _. by split. }
  rewrite Hpre in Hrun. clear Hpre.
  destruct r1 as [[]|e].
  2:{ inversion Hrun; subst. by apply step_change_of_adds. }
  destruct (is_dir member) as [[]|e] eqn:Hd.
  - destruct (os.isdir target fs1).
    { inversion Hrun; subst. by apply step_change_of_adds. }
    pose proof (adds_dirs_mkdir target target fs1 (reflexivity _)) as Hmk.
    apply adds_dirs_dirname in Hadd.
    destruct (os.mkdir target fs1) as [fs2 [[]|e]]; cbn in Hmk;
      inversion Hrun; subst; apply step_change_of_adds_dir; try done;
      by eapply adds_dirs_trans.
  - destruct (write_file_cases target (data member) fs1)
      as [[e Hw]|(c & h & Ht & Hh & Hp & Hw)]; rewrite Hw in Hrun;
      inversion Hrun; subst.
    { by apply step_change_of_adds. }
    destruct (decide (target = q)) as [<-|Hne].
    + unfold step_change. fold target. rewrite lookup_insert_eq.
      destruct (Hadd target) as [E|(E & E' & _)]; [|congruence].
      right; right. repeat split; try done. { by rewrite Ht. }
      by rewrite <- E.
    + pose proof (step_change_of_adds member dest fs fs1 (Ok target) q Hadd)
        as Hq.
      unfold step_change in *. by rewrite lookup_insert_ne.
  - inversion Hrun; subst. by apply step_change_of_adds.
Qed.

(** Writing a member again over a disk it is settled on succeeds and
    changes at most the content of its own file. *)
Lemma extract_settled member dest fs :
  settled member dest fs ->
  extract member dest fs
  = (overwrite member dest fs, Ok (targetpath dest (filename member))).
Proof.
  intros [Hpar Hkind]. rewrite extract_unfold. cbn zeta.
  unfold os.exists_, overwrite, is_file_member. rewrite Hpar.
  destruct (is_dir member) as [[]|e]; [| |done].
  - unfold os.isdir. by rewrite Hkind.
  - destruct Hkind as [Hne [d Hd]].
    destruct (targetpath dest (filename member)) as [|c h] eqn:Ht; [done|].
    unfold os.write_file. cbn in Hpar. by rewrite Hpar, Hd.
Qed.

Lemma wf_parent fs q :
  wf fs -> lookup_node fs q = Some Dir -> lookup_node fs (dirname q) = Some Dir.
Proof.
  intros Hwf Hq. destruct q as [|c q]; [done|].
  by destruct (Hwf _ _ Hq).
Qed.

(** One call on a well-formed disk: the disk stays well formed; after a
    success the member is settled; after a failure the same call fails
    again without changing anything. *)
Lemma extract_step member dest fs fs' r :
  wf fs -> extract member dest fs = (fs', r) ->
  wf fs' /\
  (forall t, r = Ok t ->
     t = targetpath dest (filename member) /\ settled member dest fs') /\
  (forall e, r = Raise e -> extract member dest fs' = (fs', Raise e)).
Proof.
  intros Hwf Hrun0. pose proof Hrun0 as Hrun.
  rewrite extract_unfold in Hrun. cbn zeta in Hrun.
  set (target := targetpath dest (filename member)) in *.
  unfold settled. fold target.
  assert (exists fs1 r1,
    (if os.exists_ (dirname target) fs then (fs, Ok tt)
     else os.makedirs (dirname target) fs) = (fs1, r1) /\
    wf fs1 /\
    match r1 with
    | Ok _ => os.exists_ (dirname target) fs1 = true
    | Raise _ => fs1 = fs
    end) as (fs1 & r1 & Hpre & Hwf1 & Hpost).
  { unfold os.exists_.
    destruct (lookup_node fs (dirname target)) eqn:Hup.
    - eexists _, _. split; [done|]. split; [done|]. by rewrite Hup.
    - pose proof (makedirs_wf (dirname target) fs Hwf Hup) as Hm.
      destruct (os.makedirs (dirname target) fs) as [fs1 [[]|e]].
      + destruct Hm as [Hwf1 Hd]. eexists _, _. split; [done|].
        split; [done|]. by rewrite Hd.
      + subst fs1. eexists _, _. split; [done|]. done. }
  rewrite Hpre in Hrun. clear Hpre.
  destruct r1 as [[]|e].
  2:{ subst fs1. inversion Hrun; subst fs' r.
      split; [done|]. split; [done|]. by intros e' [= <-]. }
  assert (Hre : forall st,
    extract member dest fs1 = st <->
    match is_dir member with
    | Raise e => (fs1, Raise e)
    | Ok true =>
        if os.isdir target fs1 then (fs1, Ok target)
        else match os.mkdir target fs1 with
             | (fs2, Ok _) => (fs2, Ok target)
             | (fs2, Raise e) => (fs2, Raise e)
             end
    | Ok false =>
        match os.write_file target (data member) fs1 with
        | (fs2, Ok _) => (fs2, Ok target)
        | (fs2, Raise e) => (fs2, Raise e)
        end
    end = st).
  { intros st. rewrite extract_unfold. cbn zeta. fold target.
    by rewrite Hpost. }
  destruct (is_dir member) as [[]|e] eqn:Hd.
  - destruct (os.isdir target fs1) eqn:Hisd.
    { inversion Hrun; subst fs' r. split; [done|]. split; [|done].
      intros t [= <-]. split; [done|]. unfold os.isdir in Hisd.
      destruct (lookup_node fs1 target) as [[]|] eqn:Ht; try done.
      split; [|done]. by apply wf_parent. }
    destruct (mkdir_cases target fs1)
      as [[e Hmk]|(c & h & Ht & Hh & Hp & Hmk)]; rewrite Hmk in Hrun;
      inversion Hrun; subst fs' r.
    + split; [done|]. split; [done|]. intros e' [= <-].
      apply Hre. by rewrite Hmk.
    + split; [rewrite Ht; by apply wf_insert; auto|]. split; [|done].
      intros t [= <-]. split; [done|]. rewrite Ht. cbn [dirname tail].
      rewrite lookup_node_insert_ne by apply cons_ne_tail.
      split; [done|]. cbn. by rewrite lookup_insert_eq.
  - destruct (write_file_cases target (data member) fs1)
      as [[e Hw]|(c & h & Ht & Hh & Hp & Hw)]; rewrite Hw in Hrun;
      inversion Hrun; subst fs' r.
    + split; [done|]. split; [done|]. intros e' [= <-].
      apply Hre. by rewrite Hw.
    + split.
      { rewrite Ht. apply wf_insert; auto. right. by rewrite <- Ht. }
      split; [|done].
      intros t [= <-]. split; [done|]. rewrite Ht. cbn [dirname tail].
      rewrite lookup_node_insert_ne by apply cons_ne_tail.
      split; [done|]. split; [done|]. eexists. by rewrite lookup_insert_eq.
  - inversion Hrun; subst fs' r. split; [done|]. split; [done|].
    intros e' [= <-]. by apply Hre.
Qed.

Lemma extract_file_ok member dest fs fs' t :
  extract member dest fs = (fs', Ok t) -> is_dir member = Ok false ->
  fs' !! targetpath dest (filename member) = Some (File (data member)).
Proof.
  rewrite extract_unfold. cbn zeta. intros Hrun Hd. rewrite Hd in Hrun.
  destruct (if os.exists_ _ fs then _ else _) as [fs1 [[]|e]]; [|done].
  destruct (write_file_cases (targetpath dest (filename member))
              (data member) fs1) as [[e Hw]|(c & h & Ht & Hh & Hp & Hw)];
    rewrite Hw in Hrun; inversion Hrun; subst.
  by rewrite lookup_insert_eq.
Qed.

Lemma extract_keeps_file member dest fs fs' r q d :
  extract member dest fs = (fs', r) -> fs !! q = Some (File d) ->
  fs' !! q = Some (File d) \/
  (is_dir member = Ok false /\ q = targetpath dest (filename member) /\
   r = Ok q).
Proof.
  intros Hrun Hq.
  destruct (extract_frame _ _ _ _ _ Hrun q)
    as [E|[(E & _)|(E1 & _ & E2 & E3 & _)]].
  - left. congruence.
  - congruence.
  - right. by subst.
Qed.

Lemma extract_kind_le member dest fs fs' r :
  extract member dest fs = (fs', r) -> kind_le fs fs'.
Proof.
  intros Hrun q.
  destruct (extract_frame _ _ _ _ _ Hrun q)
    as [E|[(E & _)|(E1 & _ & E2 & E3 & E4 & E5)]].
  - rewrite E. split; [done|]. intros d Hd. by exists d.
  - rewrite E. by split.
  - split; [done|]. intros d Hd. by eexists.
Qed.

Lemma kind_le_refl fs : kind_le fs fs.
Proof. intros q. split; [done|]. intros d Hd. by exists d. Qed.

Lemma kind_le_trans a b c : kind_le a b -> kind_le b c -> kind_le a c.
Proof.
  intros Hab Hbc q. destruct (Hab q) as [D1 F1], (Hbc q) as [D2 F2].
  split; [auto|]. intros d Hd. destruct (F1 d Hd) as [d' Hd']. eauto.
Qed.

Lemma kind_le_dir fs fs' q :
  kind_le fs fs' -> lookup_node fs q = Some Dir -> lookup_node fs' q = Some Dir.
Proof.
  intros H Hq. destruct q as [|c q]; [done|]. by apply H.
Qed.

Lemma settled_mono member dest fs fs' :
  kind_le fs fs' -> settled member dest fs -> settled member dest fs'.
Proof.
  intros Hle [Hpar Hkind]. split; [by eapply kind_le_dir|].
  destruct (is_dir member) as [[]|]; [by eapply kind_le_dir| |done].
  destruct Hkind as [Hne [d Hd]]. split; [done|]. by eapply Hle.
Qed.

Lemma overwrite_kind_le member dest fs :
  settled member dest fs -> kind_le fs (overwrite member dest fs).
Proof.
  intros [_ Hkind]. unfold overwrite, is_file_member.
  destruct (is_dir member) as [[]|]; try apply kind_le_refl.
  destruct Hkind as [_ [d Hd]]. intros q.
  destruct (decide (targetpath dest (filename member) = q)) as [<-|Hne].
  - rewrite lookup_insert_eq, Hd. split; [done|]. by eexists.
  - rewrite lookup_insert_ne by done. apply kind_le_refl.
Qed.

Lemma overwrite_wf member dest fs :
  wf fs -> settled member dest fs -> wf (overwrite member dest fs).
Proof.
  intros Hwf [Hpar Hkind]. unfold overwrite, is_file_member.
  destruct (is_dir member) as [[]|]; try done.
  destruct Hkind as [Hne [d Hd]].
  destruct (targetpath dest (filename member)) as [|c h]; [done|].
  apply wf_insert; auto. right. by rewrite Hd.
Qed.

(** ** The whole loop *)

Section Run.

Variable dest : path.

Lemma extract_members_cons info rest fs :
  extract_members dest (info :: rest) fs =
  match extract (fix_separators info) dest fs with
  | (fs', Ok t) =>
      match extract_members dest rest fs' with
      | (fs'', ts, r) => (fs'', t :: ts, r)
      end
  | (fs', Raise e) => (fs', [], Raise e)
  end.
Proof. reflexivity. Qed.

(** A relation that every call respects holds between the first and the
    last disk of a run. *)
Lemma extract_members_rel (R : FS -> FS -> Prop) :
  (forall fs, R fs fs) ->
  (forall a b c, R a b -> R b c -> R a c) ->
  (forall info fs fs' r,
     extract (fix_separators info) dest fs = (fs', r) -> R fs fs') ->
  forall members fs fs' ts r,
    extract_members dest members fs = (fs', ts, r) -> R fs fs'.
Proof.
  intros Hrefl Htrans Hstep. induction members as [|info rest IH];
    intros fs fs' ts r Hrun.
  - inversion Hrun; subst. apply Hrefl.
  - rewrite extract_members_cons in Hrun.
    destruct (extract (fix_separators info) dest fs) as [fs1 [t|e]] eqn:H1.
    + destruct (extract_members dest rest fs1) as [[fs2 ts2] r2] eqn:H2.
      inversion Hrun; subst. eapply Htrans; eauto.
    + inversion Hrun; subst. eauto.
Qed.

Lemma extract_members_kind_le members fs fs' ts r :
  extract_members dest members fs = (fs', ts, r) -> kind_le fs fs'.
Proof.
  apply extract_members_rel.
  - apply kind_le_refl.
  - apply kind_le_trans.
  - intros. by eapply extract_kind_le.
Qed.

Lemma extract_members_wf members : forall fs fs' ts r,
  wf fs -> extract_members dest members fs = (fs', ts, r) -> wf fs'.
Proof.
  induction members as [|info rest IH]; intros fs fs' ts r Hwf Hrun.
  - by inversion Hrun; subst.
  - rewrite extract_members_cons in Hrun.
    destruct (extract (fix_separators info) dest fs) as [fs1 [t|e]] eqn:H1;
      destruct (extract_step _ _ _ _ _ Hwf H1) as (Hwf1 & _ & _).
    + destruct (extract_members dest rest fs1) as [[fs2 ts2] r2] eqn:H2.
      inversion Hrun; subst. eauto.
    + by inversion Hrun; subst.
Qed.

(** The run of a concatenation. *)
Lemma extract_members_app l1 l2 fs :
  extract_members dest (l1 ++ l2) fs =
  match extract_members dest l1 fs with
  | (fs1, ts1, Ok _) =>
      match extract_members dest l2 fs1 with
      | (fs2, ts2, r) => (fs2, ts1 ++ ts2, r)
      end
  | (fs1, ts1, Raise e) => (fs1, ts1, Raise e)
  end.
Proof.
  revert fs. induction l1 as [|info rest IH]; intros fs.
  - cbn. by destruct (extract_members dest l2 fs) as [[? ?] ?].
  - cbn [app]. rewrite !extract_members_cons.
    destruct (extract (fix_separators info) dest fs) as [fs1 [t|e]]; [|done].
    rewrite IH.
    destruct (extract_members dest rest fs1) as [[fs2 ts2] [[]|e]]; [|done].
    by destruct (extract_members dest l2 fs2) as [[? ?] ?].
Qed.

(** A run that raises does so at one member, after a run without
    exception over the members before it. *)
Lemma extract_members_raise members : forall fs fs' ts e,
  extract_members dest members fs = (fs', ts, Raise e) ->
  exists l1 info l2 fs1,
    members = l1 ++ info :: l2 /\
    extract_members dest l1 fs = (fs1, ts, Ok tt) /\
    extract (fix_separators info) dest fs1 = (fs', Raise e).
Proof.
  induction members as [|info rest IH]; intros fs fs' ts e Hrun; [done|].
  rewrite extract_members_cons in Hrun.
  destruct (extract (fix_separators info) dest fs) as [fs1 [t|e1]] eqn:H1.
  - destruct (extract_members dest rest fs1) as [[fs2 ts2] r2] eqn:H2.
    inversion Hrun; subst.
    destruct (IH _ _ _ _ H2) as (l1 & i & l2 & fs3 & -> & Hl1 & Hi).
    exists (info :: l1), i, l2, fs3. split; [done|]. split; [|done].
    rewrite extract_members_cons, H1, Hl1. done.
  - inversion Hrun; subst. by exists [], info, rest, fs.
Qed.

Lemma is_file_member_spec info :
  is_file_member info = true <-> is_dir info = Ok false.
Proof.
  unfold is_file_member. destruct (is_dir info) as [[]|]; split; congruence.
Qed.

(** A file that no later plain-file member aims at keeps its content. *)
Lemma extract_members_keeps members q d : forall fs fs' ts r,
  extract_members dest members fs = (fs', ts, r) ->
  last_write dest members q = None ->
  fs !! q = Some (File d) -> fs' !! q = Some (File d).
Proof.
  induction members as [|info rest IH]; intros fs fs' ts r Hrun Hlast Hq.
  - by inversion Hrun; subst.
  - rewrite extract_members_cons in Hrun. cbn in Hlast.
    destruct (last_write dest rest q) eqn:Hrest; [done|].
    destruct (is_file_member (fix_separators info)
              && bool_decide (target_of dest info = q)) eqn:Hme; [done|].
    assert (forall fs1 r1,
      extract (fix_separators info) dest fs = (fs1, r1) ->
      fs1 !! q = Some (File d)) as Hkeep.
    { intros fs1 r1 H1.
      destruct (extract_keeps_file _ _ _ _ _ _ _ H1 Hq)
        as [E|(E1 & E2 & _)]; [done|].
      apply is_file_member_spec in E1. rewrite E1 in Hme. cbn in Hme.
      apply bool_decide_eq_false in Hme. by destruct Hme. }
    destruct (extract (fix_separators info) dest fs) as [fs1 [t|e]] eqn:H1.
    + destruct (extract_members dest rest fs1) as [[fs2 ts2] r2] eqn:H2.
      inversion Hrun; subst. eapply IH; eauto.
    + inversion Hrun; subst. eauto.
Qed.

(** After a run without exception, a path holds the content of the last
    plain-file member aimed at it. *)
Lemma extract_members_last_write members q d : forall fs fs' ts,
  extract_members dest members fs = (fs', ts, Ok tt) ->
  last_write dest members q = Some d ->
  fs' !! q = Some (File d).
Proof.
  induction members as [|info rest IH]; intros fs fs' ts Hrun Hlast; [done|].
  rewrite extract_members_cons in Hrun. cbn in Hlast.
  destruct (extract (fix_separators info) dest fs) as [fs1 [t|e]] eqn:H1;
    [|done].
  destruct (extract_members dest rest fs1) as [[fs2 ts2] r2] eqn:H2.
  inversion Hrun; subst.
  destruct (last_write dest rest q) eqn:Hrest.
  - inversion Hlast; subst. eauto.
  - destruct (is_file_member (fix_separators info)) eqn:Hf; [|done].
    cbn in Hlast. case_bool_decide as Ht; [|done].
    inversion Hlast; subst.
    apply is_file_member_spec in Hf.
    pose proof (extract_file_ok _ _ _ _ _ H1 Hf) as Hw.
    eapply extract_members_keeps; eauto.
Qed.

Lemma overwrite_all_lookup members q : forall fs,
  overwrite_all dest members fs !! q =
  match last_write dest members q with
  | Some d => Some (File d)
  | None => fs !! q
  end.
Proof.
  induction members as [|info rest IH]; intros fs; [done|].
  unfold overwrite_all in *. cbn [foldl last_write]. rewrite IH.
  destruct (last_write dest rest q); [done|].
  unfold overwrite at 1.
  destruct (is_file_member (fix_separators info)); [|done].
  change (targetpath dest (filename (fix_separators info)))
    with (target_of dest info).
  change (data (fix_separators info)) with (data info). cbn.
  case_bool_decide as Ht.
  - rewrite Ht. by rewrite lookup_insert_eq.
  - by rewrite lookup_insert_ne.
Qed.

(** Running the members again over any disk that keeps the nodes of a
    finished run only rewrites their files. *)
Lemma extract_members_absorb members : forall fs fs1 ts,
  wf fs -> extract_members dest members fs = (fs1, ts, Ok tt) ->
  forall F, wf F -> kind_le fs1 F ->
    extract_members dest members F = (overwrite_all dest members F, ts, Ok tt).
Proof.
  induction members as [|info rest IH]; intros fs fs1 ts Hwf Hrun F HwfF Hle.
  - by inversion Hrun; subst.
  - rewrite extract_members_cons in Hrun.
    destruct (extract (fix_separators info) dest fs) as [fs2 [t|e]] eqn:H1;
      [|done].
    destruct (extract_members dest rest fs2) as [[fs3 ts3] r3] eqn:H2.
    inversion Hrun; subst.
    destruct (extract_step _ _ _ _ _ Hwf H1) as (Hwf2 & Hok & _).
    destruct (Hok _ eq_refl) as [-> Hset].
    assert (settled (fix_separators info) dest F) as HsetF.
    { eapply settled_mono; [|exact Hset].
      eapply kind_le_trans; [|exact Hle].
      by eapply extract_members_kind_le. }
    rewrite extract_members_cons, (extract_settled _ _ _ HsetF).
    rewrite (IH _ _ _ Hwf2 H2 (overwrite (fix_separators info) dest F)).
    + done.
    + by apply overwrite_wf.
    + eapply kind_le_trans; [exact Hle|]. by apply overwrite_kind_le.
Qed.

(** Running the loop a second time changes nothing and ends the same
    way. *)
Lemma extract_members_twice members fs fs1 ts r :
  wf fs -> extract_members dest members fs = (fs1, ts, r) ->
  extract_members dest members fs1 = (fs1, ts, r).
Proof.
  intros Hwf Hrun. destruct r as [[]|e].
  - rewrite (extract_members_absorb _ _ _ _ Hwf Hrun fs1).
    + f_equal. f_equal. apply map_eq. intros q.
      rewrite overwrite_all_lookup.
      destruct (last_write dest members q) eqn:Hl; [|done].
      symmetry. by eapply extract_members_last_write.
    + by eapply extract_members_wf.
    + apply kind_le_refl.
  - destruct (extract_members_raise _ _ _ _ _ Hrun)
      as (l1 & info & l2 & fs2 & -> & Hl1 & Hi).
    pose proof (extract_members_wf _ _ _ _ _ Hwf Hl1) as Hwf2.
    destruct (extract_step _ _ _ _ _ Hwf2 Hi) as (Hwf1 & _ & Hagain).
    rewrite extract_members_app.
    rewrite (extract_members_absorb _ _ _ _ Hwf Hl1 fs1 Hwf1).
    2:{ by eapply extract_kind_le. }
    assert (overwrite_all dest l1 fs1 = fs1) as ->.
    { apply map_eq. intros q. rewrite overwrite_all_lookup.
      destruct (last_write dest l1 q) eqn:Hl; [|done].
      pose proof (extract_members_last_write _ _ _ _ _ _ Hl1 Hl) as Hq.
      destruct (extract_keeps_file _ _ _ _ _ _ _ Hi Hq)
        as [E|(_ & _ & E)]; [done|done]. }
    rewrite extract_members_cons, (Hagain _ eq_refl). by rewrite app_nil_r.
Qed.

End Run.

Lemma wf_check_sound fs : wf_check fs = true -> wf fs.
Proof.
  unfold wf_check. intros H%bool_decide_eq_true q n Hq.
  destruct (H q n Hq) as [Hne Hd]. split; [done|].
  unfold os.isdir in Hd. by destruct (lookup_node fs (dirname q)) as [[]|].
Qed.

(** ** Archives that extract without exception *)

Lemma elem_of_suffixes q p : q ∈ suffixes p <-> q `suffix_of` p.
Proof.
  induction p as [|c p IH]; cbn.
  - rewrite list_elem_of_singleton. split; [by intros ->|].
    apply suffix_nil_inv.
  - rewrite elem_of_cons, IH. split.
    + intros [->|H]; [done|by apply suffix_cons_r].
    + intros H. destruct q as [|d q]; [right; apply suffix_nil|].
      apply suffix_cons_inv in H as [H|H]; [by left|by right].
Qed.

Lemma elem_of_ancestors q p : q ∈ ancestors p <-> q `suffix_of` p /\ q <> p.
Proof.
  destruct p as [|c p]; cbn.
  - split; [by intros H%elem_of_nil|]. by intros [->%suffix_nil_inv H].
  - rewrite elem_of_suffixes. split.
    + intros H. split; [by apply suffix_cons_r|].
      intros ->. by apply suffix_cons_not in H.
    + intros [H Hne]. destruct q as [|d q]; [apply suffix_nil|].
      by apply suffix_cons_inv in H as [H|H].
Qed.

Lemma isfile_false_lookup q fs :
  os.isfile q fs = false -> forall d, lookup_node fs q <> Some (File d).
Proof. unfold os.isfile. intros H d Hq. by rewrite Hq in H. Qed.

(** [makedirs] of a missing directory succeeds when no file lies on the
    way. *)
Lemma makedirs_ok name : forall fs,
  wf fs -> lookup_node fs name = None ->
  (forall q, q `suffix_of` name -> os.isfile q fs = false) ->
  exists fs', os.makedirs name fs = (fs', Ok tt).
Proof.
  induction name as [|c head IH]; intros fs Hwf Hmiss Hfree; [done|].
  cbn [os.makedirs]. unfold os.exists_.
  destruct (lookup_node fs head) as [[d|]|] eqn:Hh.
  - by destruct (isfile_false_lookup head fs
                   (Hfree head (suffix_cons_r _ _ _ (reflexivity _))) d).
  - unfold os.mkdir. rewrite Hh. cbn in Hmiss. rewrite Hmiss. by eexists.
  - destruct (IH fs Hwf Hh) as [fs1 Hrec].
    { intros q Hq. apply Hfree. by apply suffix_cons_r. }
    pose proof (makedirs_wf head fs Hwf Hh) as Hpost.
    pose proof (makedirs_adds head fs) as Hadd.
    rewrite Hrec in *. cbn in Hadd. destruct Hpost as [_ Hh1].
    unfold os.mkdir. rewrite Hh1.
    destruct (Hadd (c :: head)) as [E|(_ & _ & Hs & _)].
    + cbn in Hmiss. rewrite E, Hmiss. by eexists.
    + by apply suffix_cons_not in Hs.
Qed.

Lemma last_char_nonempty s : s <> "" -> exists c, last_char s = Some c.
Proof.
  induction s as [|a s IH]; [done|]. intros _.
  destruct s as [|b s]; [by exists a|].
  destruct IH as [c Hc]; [done|]. exists c. exact Hc.
Qed.

Lemma replace_nonempty old new s : s <> "" -> replace old new s <> "".
Proof. by destruct s. Qed.

(** One call succeeds on a well-formed disk that does not stand in the
    way of the member. *)
Lemma extract_ok member dest fs :
  let target := targetpath dest (filename member) in
  wf fs -> filename member <> "" ->
  (forall q, q ∈ ancestors target -> os.isfile q fs = false) ->
  (is_file_member member = true -> os.isdir target fs = false) ->
  (is_file_member member = false -> os.isfile target fs = false) ->
  exists fs', extract member dest fs = (fs', Ok target).
Proof.
  intros target Hwf Hname Hfree Hfile Hdir.
  rewrite extract_unfold. cbn zeta. fold target. clearbody target.
  assert (exists fs1,
    (if os.exists_ (dirname target) fs then (fs, Ok tt)
     else os.makedirs (dirname target) fs) = (fs1, Ok tt) /\
    lookup_node fs1 (dirname target) = Some Dir /\
    (target <> [] -> fs1 !! target = fs !! target))
    as (fs1 & -> & Hpar & Hsame).
  { unfold os.exists_.
    destruct (lookup_node fs (dirname target)) as [[d|]|] eqn:Hup.
    - destruct target as [|c h]; [done|]. cbn in Hup.
      destruct (isfile_false_lookup h fs) with d; [|done].
      apply Hfree. cbn. apply elem_of_suffixes. done.
    - by exists fs.
    - destruct (makedirs_ok (dirname target) fs Hwf Hup) as [fs1 Hmk].
      { intros q Hq. destruct target as [|c h]; [done|].
        apply Hfree. cbn. by apply elem_of_suffixes. }
      pose proof (makedirs_wf (dirname target) fs Hwf Hup) as Hpost.
      pose proof (makedirs_adds (dirname target) fs) as Hadd.
      rewrite Hmk in *. cbn in Hadd. destruct Hpost as [_ Hd].
      exists fs1. split; [done|]. split; [done|]. intros Hne.
      destruct (Hadd target) as [E|(_ & _ & Hs & _)]; [done|].
      destruct target as [|c h]; [done|]. by apply suffix_cons_not in Hs. }
  destruct (last_char_nonempty _ Hname) as [c Hc].
  unfold is_file_member, is_dir in *. rewrite Hc in *.
  destruct (Ascii.eqb c slash).
  - specialize (Hdir eq_refl). unfold os.isdir, os.isfile in *.
    destruct target as [|t h]; [by eexists|].
    cbn in Hpar, Hdir. cbn. specialize (Hsame ltac:(done)).
    destruct (fs1 !! (t :: h)) as [[d|]|] eqn:Ht.
    + rewrite <- Hsame in Hdir. done.
    + by eexists.
    + unfold os.mkdir. rewrite Hpar. by eexists.
  - specialize (Hfile eq_refl). unfold os.isdir in Hfile.
    destruct target as [|t h]; [done|].
    cbn in Hpar, Hfile. specialize (Hsame ltac:(done)).
    unfold os.write_file. rewrite Hpar, Hsame.
    destruct (fs !! (t :: h)) as [[d|]|]; try done; by eexists.
Qed.

Lemma isfile_step member dest fs fs' r q :
  os.isfile q fs = false ->
  step_change member dest fs fs' r q ->
  ~ (q = targetpath dest (filename member) /\ is_dir member = Ok false) ->
  os.isfile q fs' = false.
Proof.
  unfold os.isfile. destruct q as [|c q]; [done|]. cbn.
  intros Hq [E|[(_ & E & _)|(E1 & _ & _ & E2 & _)]] Hno.
  - by rewrite E.
  - by rewrite E.
  - by destruct Hno.
Qed.

Lemma isdir_step member dest fs fs' r q :
  os.isdir q fs = false ->
  step_change member dest fs fs' r q ->
  ~ (q `suffix_of` targetpath dest (filename member) /\
     (q = targetpath dest (filename member) -> is_dir member = Ok true)) ->
  os.isdir q fs' = false.
Proof.
  unfold os.isdir. destruct q as [|c q]; [done|]. cbn.
  intros Hq [E|[(_ & _ & Hs & _ & Hk)|(_ & _ & _ & _ & E & _)]] Hno.
  - by rewrite E.
  - by destruct Hno.
  - by rewrite E.
Qed.

Lemma accepts_step dest members info fs fs' r :
  consistent dest members -> info ∈ members ->
  extract (fix_separators info) dest fs = (fs', r) ->
  accepts dest members fs -> accepts dest members fs'.
Proof.
  intros [_ Hcons] Hin Hrun Hacc.
  pose proof (extract_frame _ _ _ _ _ Hrun) as Hch.
  rewrite Forall_forall in Hcons.
  unfold accepts in *. rewrite Forall_forall in *.
  assert (forall f m, f ∈ members -> m ∈ members ->
    is_file_member (fix_separators f) = true ->
    (target_of dest f ∉ ancestors (target_of dest m)) /\
    (is_file_member (fix_separators m) = false ->
     target_of dest m <> target_of dest f)) as Hc.
  { intros f m Hf Hm Hfile. specialize (Hcons f Hf Hfile).
    rewrite Forall_forall in Hcons. by apply Hcons. }
  intros m Hm. destruct (Hacc m Hm) as (Hanc & Hfile & Hdir).
  rewrite Forall_forall in Hanc. split; [|split].
  - apply Forall_forall. intros q Hq.
    eapply isfile_step; [by apply Hanc|apply Hch|].
    intros [-> Hk]. apply is_file_member_spec in Hk.
    by destruct (Hc info m Hin Hm Hk) as [Hno _].
  - intros Hmf. eapply isdir_step; [by apply Hfile|apply Hch|].
    intros [Hs Hk]. destruct (Hc m info Hm Hin Hmf) as [Hno Hne].
    destruct (decide (target_of dest m = target_of dest info)) as [E|E].
    + apply Hne; [|done]. specialize (Hk E).
      unfold is_file_member. by rewrite Hk.
    + apply Hno. by apply elem_of_ancestors.
  - intros Hmd. eapply isfile_step; [by apply Hdir|apply Hch|].
    intros [E Hk]. apply is_file_member_spec in Hk.
    destruct (Hc info m Hin Hm Hk) as [_ Hne]. by apply Hne.
Qed.

(** A consistent member list extracts without exception on a
    well-formed disk that accepts it. *)
Lemma extract_members_ok dest members :
  consistent dest members ->
  forall l fs,
    l ⊆ members -> wf fs -> accepts dest members fs ->
    exists fs' ts, extract_members dest l fs = (fs', ts, Ok tt).
Proof.
  intros Hcons. induction l as [|info rest IH]; intros fs Hsub Hwf Hacc.
  - by eexists _, _.
  - assert (info ∈ members) as Hin by (apply Hsub; by left).
    pose proof Hacc as Hacc'. unfold accepts in Hacc'.
    rewrite Forall_forall in Hacc'.
    destruct (Hacc' info Hin) as (Hanc & Hfile & Hdir).
    rewrite Forall_forall in Hanc.
    pose proof Hcons as [Hnames Hc]. rewrite Forall_forall in Hnames.
    destruct (extract_ok (fix_separators info) dest fs) as [fs1 H1]; auto.
    { apply (replace_nonempty backslash slash (filename info)).
      exact (Hnames info Hin). }
    rewrite extract_members_cons, H1.
    destruct (extract_step _ _ _ _ _ Hwf H1) as (Hwf1 & _ & _).
    destruct (IH fs1) as (fs2 & ts & ->); auto.
    { intros x Hx. apply Hsub. by right. }
    { eapply accepts_step; eauto. }
    by eexists _, _.
Qed.

(** ** Reporting count *)

(** C8.  An archive with no members: [extract_zip] raises nothing,
    returns 0 and leaves the disk as it was; not even the destination
    root is created. *)
Theorem extract_zip_empty env zip_path dest fs :
  ZipFile env zip_path fs = Ok [] ->
  extract_zip env zip_path dest fs = (fs, Ok 0).
Proof.
  intros Hopen. by rewrite (extract_zip_spec _ _ _ _ _ Hopen).
Qed.

Lemma extract_zip_empty_witness :
  ZipFile demo_env "zips/empty.zip" demo_fs = Ok [] /\
  extract_zip demo_env "zips/empty.zip" demo_dest demo_fs = (demo_fs, Ok 0).
Proof.
  split; [reflexivity|].
  apply (extract_zip_empty demo_env "zips/empty.zip" demo_dest demo_fs).
  reflexivity.
Defined.

(** C3.  For an archive with the members [members], directory members
    included, [extract_zip] returns [length members]; the only other way
    it can end is with the exception that the call of [extract] for one
    member raised, after the members before it were extracted.  It does
    return when the member list is consistent and the disk is well
    formed and accepts it. *)
Theorem extract_zip_count env zip_path dest fs members :
  ZipFile env zip_path fs = Ok members ->
  match (extract_zip env zip_path dest fs).2 with
  | Ok n => n = length members
  | Raise e =>
      exists l1 info l2 fs1 ts,
        members = l1 ++ info :: l2 /\
        extract_members dest l1 fs = (fs1, ts, Ok tt) /\
        (extract (fix_separators info) dest fs1).2 = Raise e
  end /\
  (wf fs -> consistent dest members -> accepts dest members fs ->
   (extract_zip env zip_path dest fs).2 = Ok (length members)).
Proof.
  intros Hopen. rewrite (extract_zip_spec _ _ _ _ _ Hopen). split.
  - destruct (extract_members dest members fs) as [[fs' ts] [[]|e]] eqn:Hrun;
      [done|]. cbn [snd].
    destruct (extract_members_raise _ _ _ _ _ _ Hrun)
      as (l1 & info & l2 & fs1 & -> & Hl1 & Hi).
    exists l1, info, l2, fs1, ts. by rewrite Hi.
  - intros Hwf Hcons Hacc.
    destruct (extract_members_ok dest members Hcons members fs)
      as (fs' & ts & ->); done.
Qed.

Lemma extract_zip_count_witness :
  ZipFile demo_env "zips/settlers4-assets.zip" demo_fs = Ok assets_members /\
  (extract_zip demo_env "zips/settlers4-assets.zip" demo_dest demo_fs).2
  = Ok 5.
Proof.
  split; [reflexivity|].
  apply (extract_zip_count demo_env "zips/settlers4-assets.zip"
           demo_dest demo_fs assets_members eq_refl).
  - apply wf_check_sound. vm_compute. reflexivity.
  - apply (bool_decide_eq_true_1 (consistent demo_dest assets_members)).
    vm_compute. reflexivity.
  - apply (bool_decide_eq_true_1 (accepts demo_dest assets_members demo_fs)).
    vm_compute. reflexivity.
Defined.

(** ** Duplicate targets *)

Lemma last_write_app dest l1 l2 q :
  last_write dest (l1 ++ l2) q =
  match last_write dest l2 q with
  | Some d => Some d
  | None => last_write dest l1 q
  end.
Proof.
  induction l1 as [|info rest IH]; cbn.
  - by destruct (last_write dest l2 q).
  - rewrite IH. by destruct (last_write dest l2 q).
Qed.

Lemma last_write_none dest members q :
  (forall other, other ∈ members -> target_of dest other <> q) ->
  last_write dest members q = None.
Proof.
  induction members as [|info rest IH]; intros Hall; [done|]. cbn.
  rewrite IH by (intros o Ho; apply Hall; by right).
  rewrite bool_decide_eq_false_2 by (apply Hall; by left).
  by rewrite andb_false_r.
Qed.

(** C5.  When several members have the same target, the file holds the
    content of the last of them in the archive's order: if [info] is a
    plain-file member and no member after it has its target, then after
    an extraction that raised nothing the target holds [data info]. *)
Theorem last_entry_wins env zip_path dest fs l1 info l2 n :
  ZipFile env zip_path fs = Ok (l1 ++ info :: l2) ->
  (extract_zip env zip_path dest fs).2 = Ok n ->
  is_dir (fix_separators info) = Ok false ->
  (forall other, other ∈ l2 -> target_of dest other <> target_of dest info) ->
  (extract_zip env zip_path dest fs).1 !! target_of dest info
  = Some (File (data info)).
Proof.
  intros Hopen Hok Hfile Hlast.
  rewrite (extract_zip_spec _ _ _ _ _ Hopen) in *.
  destruct (extract_members dest (l1 ++ info :: l2) fs)
    as [[fs' ts] [[]|e]] eqn:Hrun; [|done]. cbn [fst].
  eapply extract_members_last_write; [exact Hrun|].
  rewrite last_write_app. cbn [last_write].
  rewrite (last_write_none _ _ _ Hlast).
  apply is_file_member_spec in Hfile. rewrite Hfile.
  by rewrite bool_decide_eq_true_2.
Qed.

Lemma last_entry_wins_witness :
  (extract_zip demo_env "zips/settlers4-assets.zip" demo_dest demo_fs).1
    !! ["b.txt"; "a"; "public"; "proj"; "home"]
  = Some (File (bytes_of "second")).
Proof.
  apply (last_entry_wins demo_env "zips/settlers4-assets.zip" demo_dest
           demo_fs
           [ member "Gfx\2.gh6" "texture"; member "a/b.txt" "first";
             member "c\d.txt" "cd"; member "Snd/" "" ]
           (member "a\b.txt" "second") [] 5).
  - reflexivity.
  - vm_compute. reflexivity.
  - reflexivity.
  - intros other Hin. inversion Hin.
Defined.

(** ** Targets *)

Lemma extract_returns member dest fs fs' t :
  extract member dest fs = (fs', Ok t) ->
  t = targetpath dest (filename member).
Proof.
  rewrite extract_unfold. cbn zeta. intros Hrun.
  destruct (if os.exists_ _ fs then _ else _) as [fs1 [[]|e]]; [|done].
  destruct (is_dir member) as [[]|e]; [| |done].
  - destruct (os.isdir _ fs1); [by inversion Hrun|].
    destruct (os.mkdir _ fs1) as [fs2 [[]|e]]; by inversion Hrun.
  - destruct (os.write_file _ _ fs1) as [fs2 [[]|e]]; by inversion Hrun.
Qed.

Lemma extract_members_returned dest members : forall fs fs' ts r,
  extract_members dest members fs = (fs', ts, r) ->
  forall i t, ts !! i = Some t ->
    exists info, members !! i = Some info /\ t = target_of dest info.
Proof.
  induction members as [|info rest IH]; intros fs fs' ts r Hrun i t Hi.
  - inversion Hrun; subst. done.
  - rewrite extract_members_cons in Hrun.
    destruct (extract (fix_separators info) dest fs) as [fs1 [t1|e]] eqn:H1.
    + destruct (extract_members dest rest fs1) as [[fs2 ts2] r2] eqn:H2.
      inversion Hrun; subst. destruct i as [|i]; cbn in Hi.
      * inversion Hi; subst. exists info. split; [done|].
        by apply extract_returns in H1.
      * by eapply IH.
    + inversion Hrun; subst. done.
Qed.

(** C6.  The target of a member depends on its stored name and on the
    destination root only.  Take two runs of the loop, over any two
    member lists and from any two disks, under the same root: whenever
    the call for position [i] of the first and the call for position [j]
    of the second returned, and the two members have the same stored
    name, the two calls returned the same path, the one [targetpath]
    computes from the repaired name. *)
Theorem target_is_pure dest members1 members2 fs1 fs2 i j info1 info2 t1 t2 :
  members1 !! i = Some info1 ->
  members2 !! j = Some info2 ->
  filename info1 = filename info2 ->
  returned (extract_loop dest (mkHeap members1 fs1 [])).1 !! i = Some t1 ->
  returned (extract_loop dest (mkHeap members2 fs2 [])).1 !! j = Some t2 ->
  t1 = t2 /\
  t1 = targetpath dest (replace backslash slash (filename info1)).
Proof.
  intros Hi Hj Hname Ht1 Ht2.
  assert (forall members fs k info t,
    members !! k = Some info ->
    returned (extract_loop dest (mkHeap members fs [])).1 !! k = Some t ->
    t = target_of dest info) as Hpure.
  { intros members fs k info t Hk Ht.
    destruct (extract_loop_spec dest members fs) as (m' & _ & Heq).
    rewrite Heq in Ht.
    destruct (extract_members dest members fs) as [[fs' ts] r] eqn:Hrun.
    cbn in Ht.
    destruct (extract_members_returned _ _ _ _ _ _ Hrun _ _ Ht)
      as (info' & Hk' & ->).
    congruence. }
  rewrite (Hpure _ _ _ _ _ Hi Ht1), (Hpure _ _ _ _ _ Hj Ht2).
  unfold target_of. by rewrite Hname.
Qed.

Lemma target_is_pure_witness :
  ["b.txt"; "a"; "public"; "proj"; "home"]
  = targetpath demo_dest (replace backslash slash "a\b.txt").
Proof.
  refine (proj2 (target_is_pure demo_dest assets_members
            [member "a\b.txt" "other"] demo_fs ∅ 4 0
            (member "a\b.txt" "second") (member "a\b.txt" "other")
            ["b.txt"; "a"; "public"; "proj"; "home"]
            ["b.txt"; "a"; "public"; "proj"; "home"] _ _ _ _ _));
    reflexivity.
Defined.

(** ** Confinement to the destination root *)

Lemma suffix_of_app_cases (q k dest : path) :
  q `suffix_of` k ++ dest ->
  q `suffix_of` dest \/ exists k', q = k' ++ dest /\ k' `suffix_of` k.
Proof.
  intros [p Hp]. apply app_eq_app in Hp as [l [[-> ->]|[-> ->]]].
  - right. exists l. split; [done|]. by exists p.
  - left. by exists l.
Qed.

Lemma targetpath_under dest name : dest `suffix_of` targetpath dest name.
Proof. unfold targetpath. by apply suffix_app_r. Qed.

Lemma arcname_parts_valid name x :
  x ∈ arcname_parts name -> x <> "" /\ x <> "." /\ x <> "..".
Proof.
  unfold arcname_parts, invalid_path_parts.
  intros [Hx _]%list_elem_of_filter. set_solver.
Qed.

Lemma outside_untouched_step dest member fs fs' r :
  extract member dest fs = (fs', r) -> outside_untouched dest fs fs'.
Proof.
  intros Hrun q Hout.
  destruct (extract_frame _ _ _ _ _ Hrun q)
    as [E|[(E & E' & Hs & _)|(E & _)]].
  - by left.
  - right. repeat split; try done. unfold targetpath in Hs.
    apply suffix_of_app_cases in Hs as [Hs|(k' & -> & _)]; [done|].
    destruct Hout. by apply suffix_app_r.
  - destruct Hout. subst q. apply targetpath_under.
Qed.

Lemma outside_untouched_members dest members fs fs' ts r :
  extract_members dest members fs = (fs', ts, r) ->
  outside_untouched dest fs fs'.
Proof.
  apply extract_members_rel.
  - intros a q _. by left.
  - intros a b c Hab Hbc q Hout.
    destruct (Hab q Hout) as [E1|(E1 & E1' & S1)],
             (Hbc q Hout) as [E2|(E2 & E2' & S2)].
    + left. congruence.
    + right. repeat split; try done. congruence.
    + right. repeat split; try done. congruence.
    + congruence.
  - intros info a b r'. apply outside_untouched_step.
Qed.

(** C2, as the code has it.  [extract_zip] has no traversal check and
    raises nothing for a member whose path holds [..] components: the
    reader drops the empty, [.] and [..] components, so every target is
    the destination root or below it, and a member is extracted like any
    other member with the same remaining components, kind and content.
    Outside the destination root a run changes no file; it can only
    create missing directories above the root. *)
Theorem extract_zip_confined env zip_path dest fs :
  (forall name,
     dest `suffix_of` targetpath dest name /\ ".." ∉ arcname_parts name) /\
  (forall m1 m2 fs0,
     arcname_parts (filename m1) = arcname_parts (filename m2) ->
     is_dir m1 = is_dir m2 -> data m1 = data m2 ->
     extract m1 dest fs0 = extract m2 dest fs0) /\
  outside_untouched dest fs (extract_zip env zip_path dest fs).1.
Proof.
  split; [|split].
  - intros name. split; [apply targetpath_under|].
    intros H%arcname_parts_valid. by destruct H as (_ & _ & H).
  - intros m1 m2 fs0 Hparts Hkind Hdata. rewrite !extract_unfold.
    unfold targetpath. by rewrite Hparts, Hkind, Hdata.
  - destruct (ZipFile env zip_path fs) as [members|e] eqn:Hopen.
    + rewrite (extract_zip_spec _ _ _ _ _ Hopen).
      destruct (extract_members dest members fs) as [[fs' ts] r] eqn:Hrun.
      apply outside_untouched_members in Hrun. by destruct r as [[]|].
    + unfold extract_zip. rewrite Hopen. intros q _. by left.
Qed.

Lemma extract_zip_confined_witness :
  extract (member "../../evil.txt" "x") demo_dest demo_fs
  = extract (member "evil.txt" "x") demo_dest demo_fs /\
  (extract_zip demo_env "zips/evil.zip" demo_dest demo_fs).1 !! ["evil.txt"; "home"]
  = None.
Proof.
  destruct (extract_zip_confined demo_env "zips/evil.zip" demo_dest demo_fs)
    as (_ & Hsame & Hout).
  split.
  - apply Hsame; reflexivity.
  - destruct (Hout ["evil.txt"; "home"]) as [->|(_ & H & _)].
    + vm_compute. intros [k Hk].
      apply (f_equal length) in Hk. rewrite length_app in Hk. cbn in Hk. lia.
    + reflexivity.
    + vm_compute in H. discriminate H.
Defined.

(** The claim as the specification states it fails: the member
    [../../evil.txt] would land outside the destination root if its
    [..] components were followed, and [extract_zip] returns 1 instead
    of raising. *)
Lemma traversal_not_rejected :
  ZipFile demo_env "zips/evil.zip" demo_fs
  = Ok [member "../../evil.txt" "x"] /\
  escapes demo_dest (replace backslash slash "../../evil.txt") = true /\
  (extract_zip demo_env "zips/evil.zip" demo_dest demo_fs).2 = Ok 1 /\
  (extract_zip demo_env "zips/evil.zip" demo_dest demo_fs).1
    !! ["evil.txt"; "public"; "proj"; "home"] = Some (File (bytes_of "x")).
Proof. vm_compute. repeat split; reflexivity. Qed.

(** ** Running twice *)

(** C4.  Extracting the same archive a second time into the same root,
    from a well-formed disk, leaves the disk of the first run as it is
    and ends the same way; and a member aimed at an existing file
    replaces its content. *)
Theorem extract_zip_idempotent env zip_path dest fs :
  wf fs ->
  ZipFile env zip_path (extract_zip env zip_path dest fs).1
  = ZipFile env zip_path fs ->
  extract_zip env zip_path dest (extract_zip env zip_path dest fs).1
  = extract_zip env zip_path dest fs /\
  (forall (info : ZipInfo) (fs0 : FS) (old : payload),
     is_dir info = Ok false ->
     lookup_node fs0 (dirname (targetpath dest (filename info))) = Some Dir ->
     fs0 !! targetpath dest (filename info) = Some (File old) ->
     targetpath dest (filename info) <> [] ->
     extract info dest fs0
     = (<[targetpath dest (filename info) := File (data info)]> fs0,
        Ok (targetpath dest (filename info)))).
Proof.
  intros Hwf Hsame. split.
  - destruct (ZipFile env zip_path fs) as [members|e] eqn:Hopen.
    + rewrite (extract_zip_spec _ _ _ _ _ Hopen) in *.
      destruct (extract_members dest members fs) as [[fs1 ts] r] eqn:Hrun.
      assert ((match r with
               | Ok _ => (fs1, Ok (length members))
               | Raise e => (fs1, Raise e)
               end).1 = fs1) as Hfst by (by destruct r as [[]|]).
      rewrite Hfst in *.
      rewrite (extract_zip_spec _ _ _ _ _ Hsame).
      by rewrite (extract_members_twice _ _ _ _ _ _ Hwf Hrun).
    + unfold extract_zip in *. rewrite Hopen in *. cbn. by rewrite Hopen.
  - intros info fs0 old Hfile Hpar Hold Hne.
    rewrite (extract_settled info dest fs0).
    + unfold overwrite. apply is_file_member_spec in Hfile.
      by rewrite Hfile.
    + split; [done|]. rewrite Hfile. split; [done|]. by exists old.
Qed.

Lemma extract_zip_idempotent_witness :
  extract_zip demo_env "zips/settlers4-assets.zip" demo_dest
    (extract_zip demo_env "zips/settlers4-assets.zip" demo_dest demo_fs).1
  = extract_zip demo_env "zips/settlers4-assets.zip" demo_dest demo_fs.
Proof.
  apply (extract_zip_idempotent demo_env "zips/settlers4-assets.zip"
           demo_dest demo_fs).
  - apply wf_check_sound. vm_compute. reflexivity.
  - vm_compute. reflexivity.
Defined.

(** ** Separator repair *)

Lemma replace_removes old new s :
  old <> new -> ~ In old (String.list_ascii_of_string (replace old new s)).
Proof.
  intros Hne. induction s as [|c s IH]; cbn; [tauto|].
  intros [H|H]; [|tauto].
  destruct (Ascii.eqb_spec c old) as [->|Hc]; congruence.
Qed.

Lemma split_chars sep s : forall w c,
  w ∈ split sep s ->
  In c (String.list_ascii_of_string w) -> In c (String.list_ascii_of_string s).
Proof.
  induction s as [|a s IH]; intros w c Hw Hc; cbn in Hw.
  - apply list_elem_of_singleton in Hw. by subst.
  - destruct (Ascii.eqb a sep).
    + apply elem_of_cons in Hw as [->|Hw]; [done|]. right. eauto.
    + destruct (split sep s) as [|w0 ws] eqn:Hs.
      * apply list_elem_of_singleton in Hw. subst. cbn in Hc. cbn. tauto.
      * apply elem_of_cons in Hw as [->|Hw].
        -- cbn in Hc. destruct Hc as [Hc|Hc]; [by left|].
           right. apply (IH w0); [by left|done].
        -- right. apply (IH w); [by right|done].
Qed.

Lemma repaired_parts_no_backslash name :
  Forall no_backslash (arcname_parts (replace backslash slash name)).
Proof.
  apply Forall_forall. intros w Hw Hin.
  unfold arcname_parts in Hw. apply list_elem_of_filter in Hw as [_ Hw].
  apply (replace_removes backslash slash name); [done|].
  by eapply split_chars.
Qed.

Lemma changes_repaired_step dest info fs fs' r :
  extract (fix_separators info) dest fs = (fs', r) ->
  changes_repaired dest fs fs'.
Proof.
  intros Hrun q.
  assert (q `suffix_of` target_of dest info ->
          q `suffix_of` dest \/
          exists k, q = k ++ dest /\ Forall no_backslash k) as Hgood.
  { intros Hs. unfold target_of, targetpath in Hs.
    apply suffix_of_app_cases in Hs as [Hs|(k' & -> & [p Hk'])]; [by left|].
    right. exists k'. split; [done|].
    pose proof (repaired_parts_no_backslash (filename info)) as Hall.
    apply Forall_rev in Hall. rewrite Hk' in Hall.
    by apply Forall_app in Hall as [_ Hall]. }
  destruct (extract_frame _ _ _ _ _ Hrun q)
    as [E|[(_ & _ & Hs & _)|(E & _)]].
  - by left.
  - right. by apply Hgood.
  - right. apply Hgood. by rewrite E.
Qed.

Lemma changes_repaired_members dest members fs fs' ts r :
  extract_members dest members fs = (fs', ts, r) ->
  changes_repaired dest fs fs'.
Proof.
  apply extract_members_rel.
  - intros a q. by left.
  - intros a b c Hab Hbc q.
    destruct (Hbc q) as [E2|H2]; [|by right].
    destruct (Hab q) as [E1|H1]; [|by right].
    left. congruence.
  - intros info a b r'. apply changes_repaired_step.
Qed.

Lemma extract_members_settled dest members : forall fs fs' ts,
  wf fs -> extract_members dest members fs = (fs', ts, Ok tt) ->
  forall info, info ∈ members -> settled (fix_separators info) dest fs'.
Proof.
  induction members as [|m rest IH]; intros fs fs' ts Hwf Hrun info Hin.
  - inversion Hin.
  - rewrite extract_members_cons in Hrun.
    destruct (extract (fix_separators m) dest fs) as [fs1 [t|e]] eqn:H1;
      [|done].
    destruct (extract_members dest rest fs1) as [[fs2 ts2] r2] eqn:H2.
    inversion Hrun; subst.
    destruct (extract_step _ _ _ _ _ Hwf H1) as (Hwf1 & Hok & _).
    apply elem_of_cons in Hin as [->|Hin].
    + eapply settled_mono; [by eapply extract_members_kind_le|].
      by apply (Hok t).
    + by eapply IH.
Qed.

Lemma settled_materialized dest info fs :
  settled (fix_separators info) dest fs -> materialized dest info fs.
Proof.
  unfold settled, materialized, is_dir, endswith. cbn.
  intros [Hpar Hkind]. split; [done|].
  destruct (last_char (replace backslash slash (filename info))); [|done].
  destruct (Ascii.eqb a slash); [done|]. by destruct Hkind.
Qed.

(** C1.  [extract_zip] extracts every member under its stored name with
    each backslash replaced by a forward slash.  Whatever the run
    changes below the destination root has no backslash in any
    component of its name.  After a run that raised nothing, every
    member is in place at the nested path of its repaired name; so a
    member stored as [Gfx\2.gh6] is the file [2.gh6] in the directory
    [Gfx] and nothing named [Gfx\2.gh6] was created, and members
    [a/b.txt] and [c\d.txt] of one archive are the files [a/b.txt] and
    [c/d.txt]. *)
Theorem extract_zip_repairs_separators env zip_path dest fs members :
  wf fs ->
  ZipFile env zip_path fs = Ok members ->
  let fs' := (extract_zip env zip_path dest fs).1 in
  changes_repaired dest fs fs' /\
  ((exists n, (extract_zip env zip_path dest fs).2 = Ok n) ->
   (forall info, info ∈ members -> materialized dest info fs') /\
   (forall info, info ∈ members -> filename info = "Gfx\2.gh6" ->
      lookup_node fs' ("Gfx" :: dest) = Some Dir /\
      (exists d, fs' !! ("2.gh6" :: "Gfx" :: dest) = Some (File d)) /\
      fs' !! ("Gfx\2.gh6" :: dest) = fs !! ("Gfx\2.gh6" :: dest)) /\
   (forall i1 i2, i1 ∈ members -> i2 ∈ members ->
      filename i1 = "a/b.txt" -> filename i2 = "c\d.txt" ->
      lookup_node fs' ("a" :: dest) = Some Dir /\
      (exists d, fs' !! ("b.txt" :: "a" :: dest) = Some (File d)) /\
      lookup_node fs' ("c" :: dest) = Some Dir /\
      (exists d, fs' !! ("d.txt" :: "c" :: dest) = Some (File d)))).
Proof.
  intros Hwf Hopen fs'. subst fs'.
  rewrite (extract_zip_spec _ _ _ _ _ Hopen).
  destruct (extract_members dest members fs) as [[fs' ts] r] eqn:Hrun.
  assert (changes_repaired dest fs fs') as Hch
    by (by eapply changes_repaired_members).
  split; [by destruct r as [[]|]|].
  destruct r as [[]|e]; [|by intros [n Hn]]. intros _. cbn [fst].
  assert (forall info, info ∈ members -> materialized dest info fs') as Hmat.
  { intros info Hin. apply settled_materialized.
    by eapply extract_members_settled. }
  split; [done|]. split.
  - intros info Hin Hname. destruct (Hmat info Hin) as [Hpar Hkind].
    rewrite Hname in Hpar, Hkind. split; [exact Hpar|]. split; [exact Hkind|].
    destruct (Hch ("Gfx\2.gh6" :: dest)) as [E|[Hs|(k & Hk & Hall)]].
    + done.
    + by apply suffix_cons_not in Hs.
    + change ("Gfx\2.gh6" :: dest) with (["Gfx\2.gh6"] ++ dest) in Hk.
      apply app_inv_tail in Hk. subst k.
      apply Forall_cons in Hall as [Hbad _]. destruct Hbad. cbn. tauto.
  - intros i1 i2 Hin1 Hin2 Hn1 Hn2.
    destruct (Hmat i1 Hin1) as [Hp1 Hk1], (Hmat i2 Hin2) as [Hp2 Hk2].
    rewrite Hn1 in Hp1, Hk1. rewrite Hn2 in Hp2, Hk2. done.
Qed.

Lemma extract_zip_repairs_separators_witness :
  let fs' :=
    (extract_zip demo_env "zips/settlers4-assets.zip" demo_dest demo_fs).1 in
  lookup_node fs' ["Gfx"; "public"; "proj"; "home"] = Some Dir /\
  (exists d, fs' !! ["2.gh6"; "Gfx"; "public"; "proj"; "home"]
             = Some (File d)) /\
  fs' !! ["Gfx\2.gh6"; "public"; "proj"; "home"] = None.
Proof.
  destruct (extract_zip_repairs_separators demo_env
              "zips/settlers4-assets.zip" demo_dest demo_fs assets_members)
    as [_ H].
  - apply wf_check_sound. vm_compute. reflexivity.
  - reflexivity.
  - destruct H as (_ & Hgfx & _).
    + exists 5. vm_compute. reflexivity.
    + destruct (Hgfx (member "Gfx\2.gh6" "texture")) as (Hd & Hf & Hno).
      * by left.
      * reflexivity.
      * cbn zeta. split; [exact Hd|]. split; [exact Hf|].
        exact (eq_trans Hno eq_refl).
Defined.

(** ** [main], stage by stage *)

Lemma bind_ret {S A B : Type} (a : A) (k : A -> M S B) s : bind (ret a) k s = k a s.
Proof. reflexivity. Qed.

Lemma bind_raise {S A B : Type} e (k : A -> M S B) s :
  bind (raise e) k s = (s, Raise e).
Proof. reflexivity. Qed.

Lemma bind_assoc {S A B C : Type} (c : M S A) (k1 : A -> M S B) (k2 : B -> M S C) s :
  bind (bind c k1) k2 s = bind c (fun a => bind (k1 a) k2) s.
Proof. unfold bind. by destruct (c s) as [s' [a|e]]. Qed.

Lemma bind_print {B : Type} line (k : unit -> M world B) w :
  bind (print line) k w
  = k tt (mkWorld (w_fs w) (w_out w ++ [line]) (w_calls w)).
Proof. reflexivity. Qed.

Lemma bind_query {A B : Type} (f : FS -> A) (k : A -> M world B) w :
  bind (query f) k w = k (f (w_fs w)) w.
Proof. reflexivity. Qed.

Lemma bind_call_extract_zip {B : Type} env zip_path dest (k : nat -> M world B) w :
  bind (call_extract_zip env zip_path dest) k w =
  match extract_zip env zip_path dest (w_fs w) with
  | (fs1, Ok n) =>
      k n (mkWorld fs1 (w_out w) (w_calls w ++ [(zip_path, dest)]))
  | (fs1, Raise e) =>
      (mkWorld fs1 (w_out w) (w_calls w ++ [(zip_path, dest)]), Raise e)
  end.
Proof.
  unfold bind, call_extract_zip, on_fs. cbn.
  by destruct (extract_zip env zip_path dest (w_fs w)) as [fs1 [n|e]].
Qed.

Ltac run_main :=
  repeat first
    [ rewrite bind_assoc
    | rewrite bind_print
    | rewrite bind_query
    | rewrite bind_ret
    | rewrite bind_raise ];
  cbn [w_fs w_out w_calls].

Lemma main_no_argument env argv w :
  length argv < 2 ->
  main env argv w
  = (mkWorld (w_fs w) (w_out w ++ usage) (w_calls w), Raise (SystemExit 1)).
Proof.
  intros Hlen. unfold main.
  assert ((length argv <? 2)%nat = true) as -> by (apply Nat.ltb_lt; lia).
  unfold when. run_main. unfold usage. by rewrite <- !app_assoc.
Qed.

Lemma main_not_a_directory env argv w :
  let src_dir := posixpath.expanduser env (nth 1 argv "") in
  2 <= length argv ->
  posixpath.isdir env src_dir (w_fs w) = false ->
  main env argv w
  = (mkWorld (w_fs w) (w_out w ++ ["Not a directory: " +:+ src_dir])
       (w_calls w),
     Raise (SystemExit 1)).
Proof.
  intros src_dir Hlen Hdir. unfold main.
  assert ((length argv <? 2)%nat = false) as -> by (apply Nat.ltb_ge; lia).
  unfold when at 1. run_main. fold src_dir. rewrite Hdir.
  unfold when at 1. cbn [negb]. by run_main.
Qed.

Lemma main_no_archive env argv w :
  let src_dir := posixpath.expanduser env (nth 1 argv "") in
  2 <= length argv ->
  posixpath.isdir env src_dir (w_fs w) = true ->
  posixpath.isfile env (posixpath.join src_dir MAIN_ZIP) (w_fs w) = false ->
  main env argv w
  = (mkWorld (w_fs w)
       (w_out w ++ [MAIN_ZIP +:+ " not found in " +:+ src_dir]) (w_calls w),
     Raise (SystemExit 1)).
Proof.
  intros src_dir Hlen Hdir Hfile. unfold main.
  assert ((length argv <? 2)%nat = false) as -> by (apply Nat.ltb_ge; lia).
  unfold when at 1. run_main. fold src_dir. rewrite Hdir.
  unfold when at 1. cbn [negb]. run_main. rewrite Hfile.
  unfold when at 1. cbn [negb]. by run_main.
Qed.

Lemma main_extracts env argv w :
  let src_dir := posixpath.expanduser env (nth 1 argv "") in
  let main_zip := posixpath.join src_dir MAIN_ZIP in
  let out1 :=
    w_out w ++ ["Extracting " +:+ MAIN_ZIP +:+ " -> public/Siedler4/"] in
  let calls1 := w_calls w ++ [(main_zip, PUBLIC_DIR env)] in
  2 <= length argv ->
  posixpath.isdir env src_dir (w_fs w) = true ->
  posixpath.isfile env main_zip (w_fs w) = true ->
  main env argv w =
  match extract_zip env main_zip (PUBLIC_DIR env) (w_fs w) with
  | (fs1, Ok n) =>
      main_from_hd env src_dir
        (mkWorld fs1 (out1 ++ ["  " +:+ pretty n +:+ " entries extracted"])
           calls1)
  | (fs1, Raise e) => (mkWorld fs1 out1 calls1, Raise e)
  end.
Proof.
  intros src_dir main_zip out1 calls1 Hlen Hdir Hfile. unfold main.
  assert ((length argv <? 2)%nat = false) as -> by (apply Nat.ltb_ge; lia).
  unfold when at 1. run_main. fold src_dir. rewrite Hdir.
  unfold when at 1. cbn [negb]. run_main. fold main_zip. rewrite Hfile.
  unfold when at 1. cbn [negb]. run_main.
  rewrite bind_call_extract_zip. cbn [w_fs w_out w_calls].
  destruct (extract_zip env main_zip (PUBLIC_DIR env) (w_fs w))
    as [fs1 [n|e]]; [|done].
  unfold main_from_hd, main_verify_and_index. by run_main.
Qed.

Lemma main_verify_and_index_calls env w :
  w_calls (main_verify_and_index env w).1 = w_calls w.
Proof.
  unfold main_verify_and_index. run_main.
  destruct (os.isfile _ (w_fs w)); run_main;
    unfold bind at 1, on_fs at 1; cbn [w_fs w_out w_calls];
    destruct (run_node env _ (w_fs w)) as [fs2 [proc|e]]; try done;
    destruct (returncode proc =? 0)%Z; run_main; reflexivity.
Qed.

(** After the first archive, [main] calls [extract_zip] at most once
    more, on the optional archive and only if it is a file. *)
Lemma main_from_hd_calls env src_dir w :
  let hd_zip := posixpath.join src_dir HD_ZIP in
  w_calls (main_from_hd env src_dir w).1
  = w_calls w ++
    (if posixpath.isfile env hd_zip (w_fs w)
     then [(hd_zip, SIEDLER_DIR env)] else []).
Proof.
  intros hd_zip. unfold main_from_hd. fold hd_zip. run_main.
  destruct (posixpath.isfile env hd_zip (w_fs w)); unfold when at 1.
  - run_main. rewrite bind_call_extract_zip. cbn [w_fs w_out w_calls].
    destruct (extract_zip env hd_zip (SIEDLER_DIR env) (w_fs w))
      as [fs1 [n|e]]; [|done].
    run_main. by rewrite main_verify_and_index_calls.
  - run_main. rewrite main_verify_and_index_calls. by rewrite app_nil_r.
Qed.

(** Without the optional archive, and with an indexer that reports
    success, the rest of [main] ends normally. *)
Lemma main_from_hd_without_hd env src_dir w fs2 proc :
  posixpath.isfile env (posixpath.join src_dir HD_ZIP) (w_fs w) = false ->
  run_node env ("generate-file-list.js" :: SCRIPT_DIR env) (w_fs w)
  = (fs2, Ok proc) ->
  returncode proc = 0%Z ->
  exists out,
    main_from_hd env src_dir w = (mkWorld fs2 out (w_calls w), Ok tt).
Proof.
  intros Hhd Hnode Hrc. unfold main_from_hd. run_main. rewrite Hhd.
  unfold when at 1. run_main. unfold main_verify_and_index. run_main.
  destruct (os.isfile _ (w_fs w)); run_main;
    unfold bind at 1, on_fs at 1; cbn [w_fs w_out w_calls];
    rewrite Hnode, Hrc; cbn [Z.eqb]; run_main; by eexists.
Qed.

(** ** Failures to read the archive *)

Lemma namei_raise comps : forall cur fs e,
  posixpath.namei comps cur fs = Raise e ->
  e = FileNotFoundError \/ e = NotADirectoryError.
Proof.
  induction comps as [|c rest IH]; intros cur fs e H; cbn in H; [done|].
  destruct (lookup_node fs cur) as [[d|]|]; try (inversion H; tauto).
  by eapply IH.
Qed.

Lemma stat_raise env p fs e :
  posixpath.stat env p fs = Raise e ->
  e = FileNotFoundError \/ e = NotADirectoryError.
Proof.
  unfold posixpath.stat, posixpath.resolve. intros H.
  destruct (is_empty p); [inversion H; tauto|].
  destruct (posixpath.namei _ _ fs) as [q|e'] eqn:Hn.
  - destruct (lookup_node fs q); inversion H; tauto.
  - inversion H; subst. by eapply namei_raise.
Qed.

Lemma ZipFile_raise env p fs e :
  ZipFile env p fs = Raise e ->
  e ∈ [FileNotFoundError; NotADirectoryError; IsADirectoryError; BadZipFile].
Proof.
  unfold ZipFile. intros H.
  destruct (posixpath.stat env p fs) as [[bytes|]|e'] eqn:Hs.
  - destruct (read_archive env bytes); inversion H. set_solver.
  - inversion H. set_solver.
  - inversion H; subst. apply stat_raise in Hs as [->| ->]; set_solver.
Qed.

Lemma extract_zip_raise_on_open env zip_path dest fs e :
  ZipFile env zip_path fs = Raise e ->
  extract_zip env zip_path dest fs = (fs, Raise e).
Proof. intros H. unfold extract_zip. by rewrite H. Qed.




(** ** Invocation errors *)

(** C9.  Without a directory argument, with an argument that is not a
    directory, or without the first archive in that directory, [main]
    prints a message and exits with status 1, having called
    [extract_zip] never and changed nothing on disk.  The absence of the
    second archive is no error: when the first archive extracts and the
    indexer reports success, [main] ends with status 0. *)
Theorem main_rejects_bad_invocation env argv w :
  let src_dir := posixpath.expanduser env (nth 1 argv "") in
  let main_zip := posixpath.join src_dir MAIN_ZIP in
  let hd_zip := posixpath.join src_dir HD_ZIP in
  ((length argv < 2 \/
    posixpath.isdir env src_dir (w_fs w) = false \/
    posixpath.isfile env main_zip (w_fs w) = false) ->
   exists message,
     message <> [] /\
     main env argv w
     = (mkWorld (w_fs w) (w_out w ++ message) (w_calls w),
        Raise (SystemExit 1)) /\
     exit_status (main env argv w).2 = 1%Z) /\
  (forall n fs1 fs2 proc,
     2 <= length argv ->
     posixpath.isdir env src_dir (w_fs w) = true ->
     posixpath.isfile env main_zip (w_fs w) = true ->
     extract_zip env main_zip (PUBLIC_DIR env) (w_fs w) = (fs1, Ok n) ->
     posixpath.isfile env hd_zip fs1 = false ->
     run_node env ("generate-file-list.js" :: SCRIPT_DIR env) fs1
     = (fs2, Ok proc) ->
     returncode proc = 0%Z ->
     exit_status (main env argv w).2 = 0%Z).
Proof.
  intros src_dir main_zip hd_zip. split.
  - intros Hbad.
    destruct (decide (length argv < 2)) as [Hlen|Hlen].
    { exists usage. rewrite main_no_argument by done.
      split; [by unfold usage|]. split; reflexivity. }
    destruct (posixpath.isdir env src_dir (w_fs w)) eqn:Hdir.
    2:{ eexists. rewrite main_not_a_directory by (done || lia).
        split; [|split; reflexivity]. done. }
    destruct (posixpath.isfile env main_zip (w_fs w)) eqn:Hfile.
    2:{ eexists. rewrite main_no_archive by (done || lia).
        split; [|split; reflexivity]. done. }
    destruct Hbad as [?|[?|?]]; done.
  - intros n fs1 fs2 proc Hlen Hdir Hfile Hextract Hhd Hnode Hrc.
    rewrite main_extracts by done. fold src_dir main_zip.
    rewrite Hextract.
    edestruct (main_from_hd_without_hd env src_dir) as [out ->];
      [exact Hhd|exact Hnode|exact Hrc|]. done.
Qed.

Lemma main_rejects_bad_invocation_witness :
  (exists message,
     message <> [] /\
     main demo_env ["import-game-files.py"] (mkWorld demo_fs [] [])
     = (mkWorld demo_fs ([] ++ message) [], Raise (SystemExit 1)) /\
     exit_status
       (main demo_env ["import-game-files.py"] (mkWorld demo_fs [] [])).2
     = 1%Z) /\
  exit_status
    (main demo_env ["import-game-files.py"; "~/zips"]
       (mkWorld demo_fs [] [])).2 = 0%Z.
Proof.
  split.
  - apply (main_rejects_bad_invocation demo_env ["import-game-files.py"]
             (mkWorld demo_fs [] [])).
    left. cbn. lia.
  - pose (fs1 := (extract_zip demo_env "/home/me/zips/settlers4-assets.zip"
                    ["public"; "proj"; "home"] demo_fs).1).
    apply (proj2 (main_rejects_bad_invocation demo_env
                    ["import-game-files.py"; "~/zips"]
                    (mkWorld demo_fs [] []))
             5 fs1 fs1 (mkCompletedProcess 0 "5 files" "")).
    + cbn. lia.
    + reflexivity.
    + reflexivity.
    + transitivity
        (fs1, (extract_zip demo_env "/home/me/zips/settlers4-assets.zip"
                 ["public"; "proj"; "home"] demo_fs).2).
      * apply surjective_pairing.
      * apply (f_equal (pair fs1)). vm_compute. reflexivity.
    + vm_compute. reflexivity.
    + reflexivity.
    + reflexivity.
Defined.

(** ** Home-directory expansion *)

Lemma append_empty_r s : s +:+ "" = s.
Proof.
  induction s as [|c s IH]; [done|].
  change (String c s +:+ "") with (String c (s +:+ "")). by rewrite IH.
Qed.

Lemma is_empty_append_slash s rest :
  is_empty (s +:+ String slash rest) = false.
Proof. by destruct s. Qed.

Lemma break_at_name name suffix :
  ~ In slash (String.list_ascii_of_string name) ->
  suffix = "" \/ startswith slash suffix = true ->
  break_at slash (name +:+ suffix) = (name, suffix).
Proof.
  intros Hname Hsuffix. induction name as [|c name IH].
  - change ("" +:+ suffix) with suffix.
    destruct Hsuffix as [->|Hs]; [done|].
    destruct suffix as [|c suffix]; [done|]. cbn in Hs. cbn. by rewrite Hs.
  - change (String c name +:+ suffix) with (String c (name +:+ suffix)).
    cbn [break_at].
    assert (Ascii.eqb c slash = false) as ->.
    { apply Ascii.eqb_neq. intros ->. apply Hname. by left. }
    rewrite IH; [done|]. intros Hin. apply Hname. by right.
Qed.

(** The user part of the argument runs up to the first slash; its home
    directory replaces the tilde and the user part when it is known. *)
Lemma expanduser_tilde env name suffix :
  ~ In slash (String.list_ascii_of_string name) ->
  suffix = "" \/ startswith slash suffix = true ->
  posixpath.expanduser env (String tilde (name +:+ suffix))
  = match (if is_empty name
           then match environ_HOME env with
                | Some h => Some h
                | None => pw_dir_uid env
                end
           else pw_dir_nam env name) with
    | Some home =>
        if is_empty (rstrip slash home +:+ suffix) then "/"
        else rstrip slash home +:+ suffix
    | None => String tilde (name +:+ suffix)
    end.
Proof.
  intros Hname Hsuffix. unfold posixpath.expanduser.
  cbn [startswith behead]. change (Ascii.eqb tilde tilde) with true.
  cbn [negb]. by rewrite break_at_name.
Qed.

(** C10, as amended.  Once the number of arguments is checked, [main]
    works on [os.path.expanduser] of its directory argument only: the
    directory test and its message, the test for the first archive and
    its message, and the calls of [extract_zip] (the first archive
    always, the second when the first is extracted and the second is
    there) all take the expanded path, and two invocations whose
    arguments expand to the same path run the same.  The expansion is
    the library's: an argument that does not begin with a tilde is
    left as it is; [~] and [~/rest] stand for the home directory of the invoking
    user ([HOME], else the password database) and [rest] under it when
    that directory is known, and are left as they are, a component named
    [~], when it is not; [~name] and [~name/rest] stand for the home
    directory of the user [name] when the password database knows that
    user, and are left as they are otherwise. *)
Theorem main_expands_user env :
  (forall argv w,
     let src_dir := posixpath.expanduser env (nth 1 argv "") in
     let main_zip := posixpath.join src_dir MAIN_ZIP in
     let hd_zip := posixpath.join src_dir HD_ZIP in
     2 <= length argv ->
     (posixpath.isdir env src_dir (w_fs w) = false ->
      main env argv w
      = (mkWorld (w_fs w) (w_out w ++ ["Not a directory: " +:+ src_dir])
           (w_calls w),
         Raise (SystemExit 1))) /\
     (posixpath.isdir env src_dir (w_fs w) = true ->
      posixpath.isfile env main_zip (w_fs w) = false ->
      main env argv w
      = (mkWorld (w_fs w)
           (w_out w ++ [MAIN_ZIP +:+ " not found in " +:+ src_dir])
           (w_calls w),
         Raise (SystemExit 1))) /\
     (posixpath.isdir env src_dir (w_fs w) = true ->
      posixpath.isfile env main_zip (w_fs w) = true ->
      w_calls (main env argv w).1
      = w_calls w ++ (main_zip, PUBLIC_DIR env) ::
        match extract_zip env main_zip (PUBLIC_DIR env) (w_fs w) with
        | (fs1, Ok _) =>
            if posixpath.isfile env hd_zip fs1
            then [(hd_zip, SIEDLER_DIR env)] else []
        | (_, Raise _) => []
        end)) /\
  (forall argv argv' w,
     2 <= length argv -> 2 <= length argv' ->
     posixpath.expanduser env (nth 1 argv "")
     = posixpath.expanduser env (nth 1 argv' "") ->
     main env argv w = main env argv' w) /\
  (forall p, startswith tilde p = false -> posixpath.expanduser env p = p) /\
  (forall home rest,
     (environ_HOME env = Some home \/
      environ_HOME env = None /\ pw_dir_uid env = Some home) ->
     posixpath.expanduser env ("~/" +:+ rest)
     = rstrip slash home +:+ "/" +:+ rest /\
     posixpath.expanduser env "~"
     = (if is_empty (rstrip slash home) then "/" else rstrip slash home)) /\
  (forall rest,
     environ_HOME env = None -> pw_dir_uid env = None ->
     posixpath.expanduser env ("~/" +:+ rest) = "~/" +:+ rest /\
     posixpath.expanduser env "~" = "~") /\
  (forall name rest,
     name <> "" ->
     ~ In slash (String.list_ascii_of_string name) ->
     posixpath.expanduser env ("~" +:+ name +:+ "/" +:+ rest)
     = match pw_dir_nam env name with
       | Some home => rstrip slash home +:+ "/" +:+ rest
       | None => "~" +:+ name +:+ "/" +:+ rest
       end /\
     posixpath.expanduser env ("~" +:+ name)
     = match pw_dir_nam env name with
       | Some home =>
           if is_empty (rstrip slash home) then "/" else rstrip slash home
       | None => "~" +:+ name
       end).
Proof.
  split; [|split; [|split; [|split; [|split]]]].
  - intros argv w src_dir main_zip hd_zip Hlen. split; [|split].
    + intros Hdir. by apply main_not_a_directory.
    + intros Hdir Hfile. by apply main_no_archive.
    + intros Hdir Hfile. rewrite main_extracts by done.
      fold src_dir main_zip hd_zip.
      destruct (extract_zip env main_zip (PUBLIC_DIR env) (w_fs w))
        as [fs1 [n|e]].
      * rewrite main_from_hd_calls. cbn [w_fs w_calls]. fold hd_zip.
        by rewrite <- app_assoc.
      * reflexivity.
  - intros argv argv' w Hlen Hlen' Heq. unfold main.
    assert ((length argv <? 2)%nat = false) as -> by (apply Nat.ltb_ge; lia).
    assert ((length argv' <? 2)%nat = false) as -> by (apply Nat.ltb_ge; lia).
    by rewrite Heq.
  - intros p Hp. unfold posixpath.expanduser. by rewrite Hp.
  - intros home rest Hhome.
    assert (match environ_HOME env with
            | Some h => Some h
            | None => pw_dir_uid env
            end = Some home) as Hknown.
    { by destruct Hhome as [->|[-> ->]]. }
    split.
    + change ("~/" +:+ rest) with (String tilde ("" +:+ String slash rest)).
      change ("/" +:+ rest) with (String slash rest).
      rewrite expanduser_tilde by (by (intros []) || by right).
      cbn [is_empty]. rewrite Hknown. by rewrite is_empty_append_slash.
    + change "~" with (String tilde ("" +:+ "")).
      rewrite expanduser_tilde by (by (intros []) || by left).
      cbn [is_empty]. rewrite Hknown. by rewrite append_empty_r.
  - intros rest Hhome Hpw. split.
    + change ("~/" +:+ rest) with (String tilde ("" +:+ String slash rest)).
      rewrite expanduser_tilde by (by (intros []) || by right).
      cbn [is_empty]. by rewrite Hhome, Hpw.
    + change "~" with (String tilde ("" +:+ "")).
      rewrite expanduser_tilde by (by (intros []) || by left).
      cbn [is_empty]. by rewrite Hhome, Hpw.
  - intros name rest Hname Hslash.
    assert (is_empty name = false) as Hne by (by destruct name).
    split.
    + change ("~" +:+ name +:+ "/" +:+ rest)
        with (String tilde (name +:+ String slash rest)).
      change ("/" +:+ rest) with (String slash rest).
      rewrite expanduser_tilde by (done || by right).
      rewrite Hne. destruct (pw_dir_nam env name) as [home|]; [|done].
      by rewrite is_empty_append_slash.
    + change ("~" +:+ name) with (String tilde name).
      rewrite <- (append_empty_r name) at 1.
      rewrite expanduser_tilde by (done || by left).
      rewrite Hne. destruct (pw_dir_nam env name) as [home|].
      * by rewrite append_empty_r.
      * by rewrite append_empty_r.
Qed.

Lemma main_expands_user_witness :
  main demo_env ["import-game-files.py"; "~/nowhere"] (mkWorld demo_fs [] [])
  = (mkWorld demo_fs ["Not a directory: /home/me/nowhere"] [],
     Raise (SystemExit 1)) /\
  w_calls (main demo_env ["import-game-files.py"; "~/broken"]
             (mkWorld demo_fs [] [])).1
  = [ ("/home/me/broken/settlers4-assets.zip", ["public"; "proj"; "home"]) ] /\
  main demo_env ["import-game-files.py"; "~/zips"] (mkWorld demo_fs [] [])
  = main demo_env ["import-game-files.py"; "/home/me/zips"]
      (mkWorld demo_fs [] []) /\
  posixpath.expanduser demo_env ("~/" +:+ "zips") = "/home/me/zips" /\
  posixpath.expanduser homeless_env ("~/" +:+ "zips") = "~/zips" /\
  posixpath.expanduser shared_env ("~" +:+ "bob" +:+ "/" +:+ "zips")
  = "/home/bob/zips".
Proof.
  destruct (main_expands_user demo_env) as (Hmain & Hsame & _ & Hhome & _).
  destruct (main_expands_user homeless_env) as (_ & _ & _ & _ & Hnone & _).
  destruct (main_expands_user shared_env) as (_ & _ & _ & _ & _ & Hname).
  split; [|split; [|split; [|split; [|split]]]].
  - apply (Hmain ["import-game-files.py"; "~/nowhere"]
             (mkWorld demo_fs [] [])); [cbn; lia|reflexivity].
  - apply (proj2 (proj2 (Hmain ["import-game-files.py"; "~/broken"]
                           (mkWorld demo_fs [] []) ltac:(cbn; lia))));
      reflexivity.
  - apply Hsame; [cbn; lia|cbn; lia|reflexivity].
  - apply (Hhome "/home/me" "zips"). left. reflexivity.
  - apply (Hnone "zips"); reflexivity.
  - apply (Hname "bob" "zips"); [discriminate|].
    cbn. intros [H|[H|[H|[]]]]; discriminate H.
Defined.

(** C10 as the specification states it fails: an argument that begins
    with a tilde is not always taken relative to the home directory of
    the invoking user.  Where that directory is not known, [~/zips] is
    the directory [zips] in the directory named [~] of the working
    directory, and [main] extracts the archive found there; and
    [~bob/zips] is a directory of the user [bob], whose archive [main]
    extracts although [zips] in the home directory of the invoking user
    does not exist. *)
Lemma tilde_is_not_always_home :
  posixpath.expanduser homeless_env "~/zips" = "~/zips" /\
  posixpath.resolve homeless_env "~/zips" shared_fs
  = Ok ["zips"; "~"; "me"; "home"] /\
  w_calls (main homeless_env ["import-game-files.py"; "~/zips"]
             (mkWorld shared_fs [] [])).1
  = [ ("~/zips/settlers4-assets.zip", ["public"; "proj"; "home"]) ] /\
  environ_HOME shared_env = Some "/home/me" /\
  posixpath.isdir shared_env "/home/me/zips" shared_fs = false /\
  posixpath.expanduser shared_env "~bob/zips" = "/home/bob/zips" /\
  w_calls (main shared_env ["import-game-files.py"; "~bob/zips"]
             (mkWorld shared_fs [] [])).1
  = [ ("/home/bob/zips/settlers4-assets.zip", ["public"; "proj"; "home"]) ].
Proof. vm_compute. repeat split; reflexivity. Qed.

(** * Further properties of [extract_zip] and [main] *)

(** ** The list of [ZipInfo] objects after the loop *)

Lemma for_infolist_filelist dest todo : forall done fs log,
  for_infolist dest (length todo) (length done)
               (mkHeap (done ++ todo) fs log)
  = match extract_members dest todo fs with
    | (fs', ts, r) =>
        let k := length ts + match r with Ok _ => 0 | Raise _ => 1 end in
        (mkHeap (done ++ map fix_separators (take k todo) ++ drop k todo)
                fs' (log ++ ts), r)
    end.
Proof.
  induction todo as [|info rest IH]; intros done fs log.
  - cbn. unfold ret. by rewrite !app_nil_r.
  - cbn [length for_infolist extract_members filelist].
    rewrite list_lookup_middle by reflexivity.
    unfold bind at 1. unfold loop_body at 1. cbn [filelist disk returned].
    assert (<[length done:=fix_separators info]> (done ++ info :: rest)
            = (done ++ [fix_separators info]) ++ rest) as ->.
    { rewrite insert_app_r_alt by lia. rewrite Nat.sub_diag. cbn.
      by rewrite <- app_assoc. }
    destruct (extract (fix_separators info) dest fs) as [fs1 [t|e]] eqn:Hstep.
    + replace (S (length done)) with (length (done ++ [fix_separators info]))
        by (rewrite length_app; cbn; lia).
      rewrite IH.
      destruct (extract_members dest rest fs1) as [[fs2 ts] r].
      cbn. by rewrite <- !app_assoc.
    + cbn. rewrite take_0, drop_0, app_nil_r. cbn. by rewrite <- app_assoc.
Qed.

Lemma extract_members_returned_length dest members : forall fs fs' ts,
  extract_members dest members fs = (fs', ts, Ok tt) ->
  length ts = length members.
Proof.
  induction members as [|m rest IH]; intros fs fs' ts Hrun.
  - by inversion Hrun.
  - rewrite extract_members_cons in Hrun.
    destruct (extract (fix_separators m) dest fs) as [fs1 [t|e]]; [|done].
    destruct (extract_members dest rest fs1) as [[fs2 ts2] r2] eqn:H2.
    inversion Hrun; subst. cbn. f_equal. by eapply IH.
Qed.

(** X1.  The loop renames the objects of [z.infolist()] in place: when
    it ends, the members it reached, the one whose extraction raised
    included, carry their repaired names, and the members after that
    carry their stored names; after a loop without exception all of them
    are renamed. *)
Theorem infolist_renamed_in_place dest members fs :
  let h := (extract_loop dest (mkHeap members fs [])).1 in
  let r := (extract_loop dest (mkHeap members fs [])).2 in
  let k := length (returned h) + match r with Ok _ => 0 | Raise _ => 1 end in
  filelist h = map fix_separators (take k members) ++ drop k members /\
  length (filelist h) = length members /\
  match r with
  | Ok _ => filelist h = map fix_separators members
  | Raise _ => k <= length members
  end.
Proof.
  unfold extract_loop. cbn [filelist].
  pose proof (for_infolist_filelist dest members [] fs []) as Heq.
  cbn [length app] in Heq. rewrite Heq. clear Heq.
  destruct (extract_members dest members fs) as [[fs' ts] r] eqn:Hrun.
  cbn [fst snd filelist returned app].
  assert (length ts + match r with Ok _ => 0 | Raise _ => 1 end
          <= length members) as Hle.
  { destruct r as [[]|e].
    - rewrite (extract_members_returned_length _ _ _ _ _ Hrun). lia.
    - destruct (extract_members_raise _ _ _ _ _ _ Hrun)
        as (l1 & info & l2 & fs1 & -> & Hl1 & _).
      rewrite (extract_members_returned_length _ _ _ _ _ Hl1).
      rewrite length_app. cbn. lia. }
  split; [done|]. split.
  - rewrite length_app, length_map, length_take, length_drop. lia.
  - destruct r as [[]|e]; [|done].
    rewrite (extract_members_returned_length _ _ _ _ _ Hrun).
    rewrite Nat.add_0_r, firstn_all, drop_all. by rewrite app_nil_r.
Qed.

Lemma infolist_renamed_in_place_witness :
  map filename
    (filelist (extract_loop demo_dest (mkHeap clash_members import_fs [])).1)
  = ["a/b.txt"; "a/b.txt/c"; "z.txt"].
Proof.
  destruct (infolist_renamed_in_place demo_dest clash_members import_fs)
    as [H _].
  rewrite H. vm_compute. reflexivity.
Defined.

(** ** What a run leaves behind *)

(** X2.  There is no rollback.  When [extract_zip] ends with an
    exception raised for one member, every member before it is in place
    on the disk it leaves, and the same call for the failing member
    fails again on that disk. *)
Theorem extract_zip_keeps_partial_extraction env zip_path dest fs members e :
  wf fs ->
  ZipFile env zip_path fs = Ok members ->
  (extract_zip env zip_path dest fs).2 = Raise e ->
  exists l1 info l2,
    members = l1 ++ info :: l2 /\
    (forall m, m ∈ l1 ->
       materialized dest m (extract_zip env zip_path dest fs).1) /\
    extract (fix_separators info) dest (extract_zip env zip_path dest fs).1
    = ((extract_zip env zip_path dest fs).1, Raise e).
Proof.
  intros Hwf Hopen. rewrite (extract_zip_spec _ _ _ _ _ Hopen).
  destruct (extract_members dest members fs) as [[fs' ts] [[]|e']] eqn:Hrun;
    [done|]. cbn [fst snd]. intros [= ->].
  destruct (extract_members_raise _ _ _ _ _ _ Hrun)
    as (l1 & info & l2 & fs1 & -> & Hl1 & Hi).
  pose proof (extract_members_wf _ _ _ _ _ _ Hwf Hl1) as Hwf1.
  destruct (extract_step _ _ _ _ _ Hwf1 Hi) as (_ & _ & Hagain).
  exists l1, info, l2. split; [done|]. split; [|by apply Hagain].
  intros m Hm. apply settled_materialized.
  eapply settled_mono; [by eapply extract_kind_le|].
  exact (extract_members_settled dest l1 fs fs1 ts Hwf Hl1 m Hm).
Qed.

Lemma extract_zip_keeps_partial_extraction_witness :
  let fs' := (extract_zip (import_env 0) "bad/settlers4-assets.zip" demo_dest
                import_fs).1 in
  exists l1 info l2,
    clash_members = l1 ++ info :: l2 /\
    (forall m, m ∈ l1 -> materialized demo_dest m fs') /\
    extract (fix_separators info) demo_dest fs'
    = (fs', Raise NotADirectoryError).
Proof.
  apply (extract_zip_keeps_partial_extraction (import_env 0)
           "bad/settlers4-assets.zip" demo_dest import_fs clash_members
           NotADirectoryError).
  - apply wf_check_sound. vm_compute. reflexivity.
  - reflexivity.
  - vm_compute. reflexivity.
Defined.

(** X3.  [extract_zip] removes nothing and changes the kind of
    nothing: every directory of the disk is still a directory and every
    file still a file afterwards, and a file that is the target of no
    member keeps its content. *)
Theorem extract_zip_never_removes env zip_path dest fs :
  kind_le fs (extract_zip env zip_path dest fs).1 /\
  (forall members q d,
     ZipFile env zip_path fs = Ok members ->
     fs !! q = Some (File d) ->
     (forall m, m ∈ members -> target_of dest m <> q) ->
     (extract_zip env zip_path dest fs).1 !! q = Some (File d)).
Proof.
  split.
  - destruct (ZipFile env zip_path fs) as [members|e] eqn:Hopen.
    + rewrite (extract_zip_spec _ _ _ _ _ Hopen).
      destruct (extract_members dest members fs) as [[fs' ts] r] eqn:Hrun.
      apply extract_members_kind_le in Hrun. by destruct r as [[]|].
    + rewrite (extract_zip_raise_on_open _ _ _ _ _ Hopen).
      apply kind_le_refl.
  - intros members q d Hopen Hq Hother.
    rewrite (extract_zip_spec _ _ _ _ _ Hopen).
    destruct (extract_members dest members fs) as [[fs' ts] r] eqn:Hrun.
    assert (fs' !! q = Some (File d)) as Hkeep.
    { eapply extract_members_keeps; [exact Hrun| |exact Hq].
      by apply last_write_none. }
    by destruct r as [[]|].
Qed.

Lemma extract_zip_never_removes_witness :
  (extract_zip (import_env 0) "both/settlers4-assets.zip" ["me"; "home"]
     import_fs).1 !! ["notes.txt"; "me"; "home"]
  = Some (File (bytes_of "keep me")).
Proof.
  apply (proj2 (extract_zip_never_removes (import_env 0)
                  "both/settlers4-assets.zip" ["me"; "home"] import_fs)
           main_members).
  - reflexivity.
  - reflexivity.
  - intros m Hm. vm_compute in Hm.
    repeat (apply elem_of_cons in Hm as [->|Hm]; [by vm_compute|]).
    by apply elem_of_nil in Hm.
Defined.

(** ** Repaired names *)

Lemma replace_append old new a b :
  replace old new (a +:+ b) = replace old new a +:+ replace old new b.
Proof.
  induction a as [|c a IH]; [done|].
  change (String c a +:+ b) with (String c (a +:+ b)). cbn.
  rewrite IH. done.
Qed.

Lemma split_nonempty sep s : split sep s <> [].
Proof.
  induction s as [|c s IH]; [done|]. cbn.
  destruct (Ascii.eqb c sep); [done|]. by destruct (split sep s).
Qed.

Lemma split_append_sep sep a b :
  split sep (a +:+ String sep b) = split sep a ++ split sep b.
Proof.
  induction a as [|c a IH].
  - change ("" +:+ String sep b) with (String sep b). cbn.
    by rewrite Ascii.eqb_refl.
  - change (String c a +:+ String sep b)
      with (String c (a +:+ String sep b)). cbn.
    rewrite IH. destruct (Ascii.eqb c sep); [done|].
    pose proof (split_nonempty sep a) as Hne.
    by destruct (split sep a).
Qed.

Lemma targetpath_nested dest a b :
  targetpath dest (a +:+ String slash b) = targetpath (targetpath dest a) b.
Proof.
  unfold targetpath, arcname_parts.
  rewrite split_append_sep, filter_app, rev_app_distr.
  by rewrite app_assoc.
Qed.

Lemma replace_fixed old new s :
  ~ In old (String.list_ascii_of_string s) -> replace old new s = s.
Proof.
  induction s as [|c s IH]; [done|]. cbn. intros Hno.
  destruct (Ascii.eqb_spec c old) as [->|Hc]; [tauto|].
  rewrite IH; [done|tauto].
Qed.

(** X4.  Separators nest, whichever of the two is stored: the target of
    a member stored as [a\b] or as [a/b] is the target of [b] taken
    under the target of [a]. *)
Theorem separators_nest dest a b :
  targetpath dest (replace backslash slash (a +:+ String backslash b))
  = targetpath (targetpath dest (replace backslash slash a))
               (replace backslash slash b) /\
  targetpath dest (replace backslash slash (a +:+ String slash b))
  = targetpath (targetpath dest (replace backslash slash a))
               (replace backslash slash b).
Proof.
  split; rewrite replace_append; cbn [replace];
    rewrite ?Ascii.eqb_refl; apply targetpath_nested.
Qed.

(** X5.  Repairing a name twice is the same as repairing it once, and a
    stored name without backslash, such as the name of a top-level file
    or a name that already uses forward slashes, is left as it is. *)
Theorem fix_separators_idempotent info :
  fix_separators (fix_separators info) = fix_separators info /\
  (no_backslash (filename info) -> fix_separators info = info).
Proof.
  unfold fix_separators, set_filename. cbn [filename orig_filename data].
  split.
  - f_equal. apply replace_fixed. by apply replace_removes.
  - intros Hno. rewrite replace_fixed by done. by destruct info.
Qed.

Lemma fix_separators_idempotent_witness :
  fix_separators (member "Siedler4/Gfx/2.gh6" "texture")
  = member "Siedler4/Gfx/2.gh6" "texture".
Proof.
  apply fix_separators_idempotent. cbn. intros H.
  repeat (destruct H as [H|H]; [discriminate H|]). exact H.
Defined.

(** ** The rest of [main], outcome by outcome *)

Lemma main_verify_and_index_spec env w :
  main_verify_and_index env w =
  let verdict :=
    if os.isfile ("2.gh6" :: "Gfx" :: SIEDLER_DIR env) (w_fs w)
    then nl +:+ "  [OK] Landscape texture (Gfx/2.gh6) found"
    else nl +:+ "  [!!] Gfx/2.gh6 missing - map rendering will fail" in
  let out1 := w_out w ++ [verdict; ""; "Generating file-list.txt..."] in
  match run_node env ("generate-file-list.js" :: SCRIPT_DIR env) (w_fs w) with
  | (fs2, Raise e) => (mkWorld fs2 out1 (w_calls w), Raise e)
  | (fs2, Ok proc) =>
      if (returncode proc =? 0)%Z
      then (mkWorld fs2
              (out1 ++ ["  " +:+ strip env (proc_stdout proc); nl +:+ "Done!"])
              (w_calls w), Ok tt)
      else (mkWorld fs2
              (out1 ++ ["  Failed: " +:+ strip env (proc_stderr proc)])
              (w_calls w), Raise (SystemExit 1))
  end.
Proof.
  unfold main_verify_and_index. run_main.
  destruct (os.isfile _ (w_fs w)); run_main;
    unfold bind at 1, on_fs at 1; cbn [w_fs w_out w_calls];
    destruct (run_node env _ (w_fs w)) as [fs2 [proc|e]].
  all: cbn zeta.
  all: try (destruct (returncode proc =? 0)%Z; run_main; unfold print;
            cbn [w_fs w_out w_calls]).
  all: rewrite <- ?app_assoc; cbn [app].
  all: reflexivity.
Qed.

Lemma main_from_hd_spec env src_dir w :
  let hd_zip := posixpath.join src_dir HD_ZIP in
  let out1 :=
    w_out w ++ ["Extracting " +:+ HD_ZIP +:+ " -> public/Siedler4/"] in
  let calls1 := w_calls w ++ [(hd_zip, SIEDLER_DIR env)] in
  main_from_hd env src_dir w =
  if posixpath.isfile env hd_zip (w_fs w)
  then match extract_zip env hd_zip (SIEDLER_DIR env) (w_fs w) with
       | (fs1, Ok n) =>
           main_verify_and_index env
             (mkWorld fs1
                (out1 ++ ["  " +:+ pretty n +:+ " entries extracted"]) calls1)
       | (fs1, Raise e) => (mkWorld fs1 out1 calls1, Raise e)
       end
  else main_verify_and_index env w.
Proof.
  intros hd_zip out1 calls1. unfold main_from_hd. fold hd_zip. run_main.
  destruct (posixpath.isfile env hd_zip (w_fs w)); unfold when at 1.
  - run_main. rewrite bind_call_extract_zip. cbn [w_fs w_out w_calls].
    destruct (extract_zip env hd_zip (SIEDLER_DIR env) (w_fs w))
      as [fs1 [n|e]]; [|done].
    by run_main.
  - run_main. by destruct w.
Qed.

(** The exceptions of the calls [extract_zip] makes. *)
Lemma mkdir_raise p fs fs' e :
  os.mkdir p fs = (fs', Raise e) ->
  e ∈ [FileNotFoundError; NotADirectoryError; FileExistsError].
Proof.
  unfold os.mkdir. destruct p as [|c h]; [intros [= <- <-]; set_solver|].
  destruct (lookup_node fs h) as [[d|]|]; try (intros [= <- <-]; set_solver).
  destruct (fs !! (c :: h)); [intros [= <- <-]; set_solver|done].
Qed.

Lemma makedirs_raise name : forall fs fs' e,
  os.makedirs name fs = (fs', Raise e) ->
  e ∈ [FileNotFoundError; NotADirectoryError; FileExistsError].
Proof.
  induction name as [|c head IH]; intros fs fs' e H.
  - exact (mkdir_raise _ _ _ _ H).
  - cbn [os.makedirs] in H. destruct (os.exists_ head fs).
    + exact (mkdir_raise _ _ _ _ H).
    + destruct (os.makedirs head fs) as [fs1 [[]|e1]] eqn:Hrec.
      * exact (mkdir_raise _ _ _ _ H).
      * destruct e1;
          try (inversion H; subst; exact (IH _ _ _ Hrec)).
        exact (mkdir_raise _ _ _ _ H).
Qed.

Lemma write_file_raise p d fs fs' e :
  os.write_file p d fs = (fs', Raise e) ->
  e ∈ [FileNotFoundError; NotADirectoryError; IsADirectoryError].
Proof.
  unfold os.write_file. destruct p as [|c h]; [intros [= <- <-]; set_solver|].
  destruct (lookup_node fs h) as [[d'|]|]; try (intros [= <- <-]; set_solver).
  destruct (fs !! (c :: h)) as [[d'|]|]; try done.
  intros [= <- <-]; set_solver.
Qed.

Ltac pick_error :=
  unfold extraction_errors;
  repeat first [ apply list_elem_of_here | apply list_elem_of_further ].

Ltac from_errors H :=
  repeat (apply elem_of_cons in H as [->|H]; [pick_error|]);
  by apply elem_of_nil in H.

Lemma extract_raise member dest fs fs' e :
  extract member dest fs = (fs', Raise e) -> e ∈ extraction_errors.
Proof.
  rewrite extract_unfold. cbn zeta. intros H.
  assert (forall fs1 fs2 e2,
    match is_dir member with
    | Raise e => (fs1, Raise e)
    | Ok true =>
        if os.isdir (targetpath dest (filename member)) fs1
        then (fs1, Ok (targetpath dest (filename member)))
        else match os.mkdir (targetpath dest (filename member)) fs1 with
             | (fs2, Ok _) => (fs2, Ok (targetpath dest (filename member)))
             | (fs2, Raise e) => (fs2, Raise e)
             end
    | Ok false =>
        match os.write_file (targetpath dest (filename member))
                (data member) fs1 with
        | (fs2, Ok _) => (fs2, Ok (targetpath dest (filename member)))
        | (fs2, Raise e) => (fs2, Raise e)
        end
    end = (fs2, Raise e2) -> e2 ∈ extraction_errors) as Hrest.
  { intros fs1 fs2 e2 Hr. destruct (is_dir member) as [[]|e1] eqn:Hkind.
    - destruct (os.isdir _ fs1); [done|].
      destruct (os.mkdir _ fs1) as [fs3 [[]|e3]] eqn:Hd; [done|].
      inversion Hr; subst. apply mkdir_raise in Hd. from_errors Hd.
    - destruct (os.write_file _ _ fs1) as [fs3 [[]|e3]] eqn:Hw; [done|].
      inversion Hr; subst. apply write_file_raise in Hw. from_errors Hw.
    - unfold is_dir in Hkind.
      destruct (last_char (filename member)); inversion Hkind; subst.
      inversion Hr; subst. pick_error. }
  destruct (os.exists_ _ fs); [by eapply Hrest|].
  destruct (os.makedirs _ fs) as [fs1 [[]|e1]] eqn:Hmk; [by eapply Hrest|].
  inversion H; subst. apply makedirs_raise in Hmk. from_errors Hmk.
Qed.

Lemma extract_zip_raise env zip_path dest fs e :
  (extract_zip env zip_path dest fs).2 = Raise e -> e ∈ extraction_errors.
Proof.
  destruct (ZipFile env zip_path fs) as [members|e0] eqn:Hopen.
  - rewrite (extract_zip_spec _ _ _ _ _ Hopen).
    destruct (extract_members dest members fs) as [[fs' ts] [[]|e1]] eqn:Hrun;
      [done|]. cbn. intros [= ->].
    destruct (extract_members_raise _ _ _ _ _ _ Hrun)
      as (l1 & info & l2 & fs1 & _ & _ & Hi).
    by eapply extract_raise.
  - rewrite (extract_zip_raise_on_open _ _ _ _ _ Hopen). cbn. intros [= ->].
    apply ZipFile_raise in Hopen. from_errors Hopen.
Qed.

Lemma exit_status_extraction_error e :
  e ∈ extraction_errors -> exit_status (Raise e : result unit) = 1%Z.
Proof.
  unfold extraction_errors. intros He.
  repeat (apply elem_of_cons in He as [->|He]; [reflexivity|]).
  by apply elem_of_nil in He.
Qed.

(** ** A run of [main] past the argument checks *)

(** X6.  An exception of either extraction ends [main] at once with
    status 1: the disk stays as the failed extraction left it, the
    optional archive is not touched after a failure of the first, and in
    both cases the check of the critical file and the indexer are not
    reached, as the lines printed show. *)
Theorem main_aborts_on_extraction_error env argv w :
  let src_dir := posixpath.expanduser env (nth 1 argv "") in
  let main_zip := posixpath.join src_dir MAIN_ZIP in
  let hd_zip := posixpath.join src_dir HD_ZIP in
  let line1 := "Extracting " +:+ MAIN_ZIP +:+ " -> public/Siedler4/" in
  let line3 := "Extracting " +:+ HD_ZIP +:+ " -> public/Siedler4/" in
  2 <= length argv ->
  posixpath.isdir env src_dir (w_fs w) = true ->
  posixpath.isfile env main_zip (w_fs w) = true ->
  (forall fs1 e,
     extract_zip env main_zip (PUBLIC_DIR env) (w_fs w) = (fs1, Raise e) ->
     main env argv w
     = (mkWorld fs1 (w_out w ++ [line1])
          (w_calls w ++ [(main_zip, PUBLIC_DIR env)]), Raise e) /\
     exit_status (main env argv w).2 = 1%Z) /\
  (forall fs1 n fs2 e,
     extract_zip env main_zip (PUBLIC_DIR env) (w_fs w) = (fs1, Ok n) ->
     posixpath.isfile env hd_zip fs1 = true ->
     extract_zip env hd_zip (SIEDLER_DIR env) fs1 = (fs2, Raise e) ->
     main env argv w
     = (mkWorld fs2
          (w_out w ++ [line1; "  " +:+ pretty n +:+ " entries extracted";
                       line3])
          (w_calls w ++ [(main_zip, PUBLIC_DIR env);
                         (hd_zip, SIEDLER_DIR env)]), Raise e) /\
     exit_status (main env argv w).2 = 1%Z).
Proof.
  intros src_dir main_zip hd_zip line1 line3 Hlen Hdir Hfile.
  rewrite main_extracts by done. fold src_dir main_zip. split.
  - intros fs1 e Hrun. rewrite Hrun. split; [done|]. cbn [snd].
    apply exit_status_extraction_error.
    apply (extract_zip_raise env main_zip (PUBLIC_DIR env) (w_fs w)).
    by rewrite Hrun.
  - intros fs1 n fs2 e Hrun Hhd Hrun2. rewrite Hrun.
    rewrite main_from_hd_spec. cbn [w_fs w_out w_calls]. fold hd_zip.
    rewrite Hhd, Hrun2. split.
    + by rewrite <- !app_assoc.
    + cbn [snd]. apply exit_status_extraction_error.
      apply (extract_zip_raise env hd_zip (SIEDLER_DIR env) fs1).
      by rewrite Hrun2.
Qed.

Lemma main_aborts_on_extraction_error_witness :
  let w := mkWorld import_fs [] [] in
  let fs1 := (extract_zip (import_env 0) "/home/me/bad/settlers4-assets.zip"
                ["public"; "proj"; "home"] import_fs).1 in
  main (import_env 0) ["import-game-files.py"; "~/bad"] w
  = (mkWorld fs1 ["Extracting settlers4-assets.zip -> public/Siedler4/"]
       [("/home/me/bad/settlers4-assets.zip", ["public"; "proj"; "home"])],
     Raise NotADirectoryError) /\
  exit_status (main (import_env 0) ["import-game-files.py"; "~/bad"] w).2
  = 1%Z.
Proof.
  intros w fs1.
  apply (proj1 (main_aborts_on_extraction_error (import_env 0)
                  ["import-game-files.py"; "~/bad"] w
                  ltac:(cbn; lia) eq_refl eq_refl) fs1 NotADirectoryError).
  transitivity
    (fs1, (extract_zip (import_env 0) "/home/me/bad/settlers4-assets.zip"
             ["public"; "proj"; "home"] import_fs).2).
  - apply surjective_pairing.
  - apply (f_equal (pair fs1)). vm_compute. reflexivity.
Defined.

Lemma main_verify_and_index_disk env w :
  w_fs (main_verify_and_index env w).1
  = (run_node env ("generate-file-list.js" :: SCRIPT_DIR env) (w_fs w)).1.
Proof.
  rewrite main_verify_and_index_spec. cbn zeta.
  destruct (run_node env _ (w_fs w)) as [fs2 [proc|e]]; [|done].
  by destruct (returncode proc =? 0)%Z.
Qed.

Lemma main_verify_and_index_out env w :
  w_out w `prefix_of` w_out (main_verify_and_index env w).1.
Proof.
  rewrite main_verify_and_index_spec. cbn zeta.
  destruct (run_node env _ (w_fs w)) as [fs2 [proc|e]].
  - destruct (returncode proc =? 0)%Z; cbn; rewrite <- app_assoc;
      by eexists.
  - cbn. by eexists.
Qed.

Lemma main_from_hd_out env src_dir w :
  w_out w `prefix_of` w_out (main_from_hd env src_dir w).1.
Proof.
  rewrite main_from_hd_spec. cbn zeta.
  destruct (posixpath.isfile env _ (w_fs w));
    [|apply main_verify_and_index_out].
  destruct (extract_zip env _ (SIEDLER_DIR env) (w_fs w)) as [fs1 [n|e]].
  - etransitivity; [|apply main_verify_and_index_out]. cbn.
    rewrite <- app_assoc. by eexists.
  - cbn. by eexists.
Qed.

(** When both extractions go through, [main] reaches the check of the
    critical file on the disk they leave. *)
Lemma main_reaches_index env argv w fs1 n :
  let src_dir := posixpath.expanduser env (nth 1 argv "") in
  let main_zip := posixpath.join src_dir MAIN_ZIP in
  let hd_zip := posixpath.join src_dir HD_ZIP in
  let fs_in := if posixpath.isfile env hd_zip fs1
               then (extract_zip env hd_zip (SIEDLER_DIR env) fs1).1
               else fs1 in
  2 <= length argv ->
  posixpath.isdir env src_dir (w_fs w) = true ->
  posixpath.isfile env main_zip (w_fs w) = true ->
  extract_zip env main_zip (PUBLIC_DIR env) (w_fs w) = (fs1, Ok n) ->
  (posixpath.isfile env hd_zip fs1 = true ->
   exists m, (extract_zip env hd_zip (SIEDLER_DIR env) fs1).2 = Ok m) ->
  exists out calls,
    main env argv w = main_verify_and_index env (mkWorld fs_in out calls).
Proof.
  intros src_dir main_zip hd_zip fs_in Hlen Hdir Hfile Hrun Hhd.
  rewrite main_extracts by done. fold src_dir main_zip. rewrite Hrun.
  rewrite main_from_hd_spec. cbn [w_fs w_out w_calls]. fold hd_zip.
  subst fs_in. destruct (posixpath.isfile env hd_zip fs1).
  - destruct (Hhd eq_refl) as [m Hm].
    destruct (extract_zip env hd_zip (SIEDLER_DIR env) fs1) as [fs2 [k|e]];
      [|done].
    by eexists _, _.
  - by eexists _, _.
Qed.

(** X7.  The count [main] reports for the first archive is the number
    of members of that archive, directory members included: it is the
    second line [main] prints. *)
Theorem main_reports_member_count env argv w members n :
  let src_dir := posixpath.expanduser env (nth 1 argv "") in
  let main_zip := posixpath.join src_dir MAIN_ZIP in
  2 <= length argv ->
  posixpath.isdir env src_dir (w_fs w) = true ->
  posixpath.isfile env main_zip (w_fs w) = true ->
  ZipFile env main_zip (w_fs w) = Ok members ->
  (extract_zip env main_zip (PUBLIC_DIR env) (w_fs w)).2 = Ok n ->
  w_out (main env argv w).1 !! (length (w_out w) + 1)
  = Some ("  " +:+ pretty (length members) +:+ " entries extracted").
Proof.
  intros src_dir main_zip Hlen Hdir Hfile Hopen Hok.
  rewrite main_extracts by done. fold src_dir main_zip.
  rewrite (extract_zip_spec _ _ _ _ _ Hopen) in *.
  destruct (extract_members (PUBLIC_DIR env) members (w_fs w))
    as [[fs1 ts] [[]|e]]; [|done].
  eapply prefix_lookup_Some; [|apply main_from_hd_out].
  cbn [w_out]. rewrite <- app_assoc. cbn [app].
  rewrite lookup_app_r by lia.
  by replace (length (w_out w) + 1 - length (w_out w)) with 1 by lia.
Qed.

Lemma main_reports_member_count_witness :
  w_out (main (import_env 0) ["import-game-files.py"; "~/both"]
           (mkWorld import_fs ["$ import"] [])).1 !! 2
  = Some "  3 entries extracted".
Proof.
  apply (main_reports_member_count (import_env 0)
           ["import-game-files.py"; "~/both"]
           (mkWorld import_fs ["$ import"] []) main_members 3).
  - cbn. lia.
  - reflexivity.
  - reflexivity.
  - reflexivity.
  - vm_compute. reflexivity.
Defined.

(** X8.  The three steps of [main] work on one disk, one after the
    other: the optional archive is looked for and extracted on the disk
    the first extraction left, and the indexer runs on the disk the
    extractions left; when the second extraction raises, its disk is the
    final one. *)
Theorem main_passes_the_disk_on env argv w fs1 n :
  let src_dir := posixpath.expanduser env (nth 1 argv "") in
  let main_zip := posixpath.join src_dir MAIN_ZIP in
  let hd_zip := posixpath.join src_dir HD_ZIP in
  let gen_script := "generate-file-list.js" :: SCRIPT_DIR env in
  2 <= length argv ->
  posixpath.isdir env src_dir (w_fs w) = true ->
  posixpath.isfile env main_zip (w_fs w) = true ->
  extract_zip env main_zip (PUBLIC_DIR env) (w_fs w) = (fs1, Ok n) ->
  w_fs (main env argv w).1 =
  if posixpath.isfile env hd_zip fs1
  then match extract_zip env hd_zip (SIEDLER_DIR env) fs1 with
       | (fs2, Ok _) => (run_node env gen_script fs2).1
       | (fs2, Raise _) => fs2
       end
  else (run_node env gen_script fs1).1.
Proof.
  intros src_dir main_zip hd_zip gen_script Hlen Hdir Hfile Hrun.
  rewrite main_extracts by done. fold src_dir main_zip. rewrite Hrun.
  rewrite main_from_hd_spec. cbn [w_fs w_out w_calls]. fold hd_zip.
  destruct (posixpath.isfile env hd_zip fs1).
  - destruct (extract_zip env hd_zip (SIEDLER_DIR env) fs1) as [fs2 [k|e]];
      [|done].
    by rewrite main_verify_and_index_disk.
  - by rewrite main_verify_and_index_disk.
Qed.

Lemma main_passes_the_disk_on_witness :
  let fs1 := (extract_zip (import_env 0) "/home/me/both/settlers4-assets.zip"
                ["public"; "proj"; "home"] import_fs).1 in
  w_fs (main (import_env 0) ["import-game-files.py"; "~/both"]
          (mkWorld import_fs [] [])).1
  = (extract_zip (import_env 0) "/home/me/both/settlers4-hd-assets.zip"
       ["Siedler4"; "public"; "proj"; "home"] fs1).1.
Proof.
  intros fs1.
  rewrite (main_passes_the_disk_on (import_env 0)
             ["import-game-files.py"; "~/both"] (mkWorld import_fs [] [])
             fs1 3).
  - assert (posixpath.isfile (import_env 0)
              (posixpath.join
                 (posixpath.expanduser (import_env 0)
                    (nth 1 ["import-game-files.py"; "~/both"] "")) HD_ZIP)
              fs1 = true) as -> by (vm_compute; reflexivity).
    change (SIEDLER_DIR (import_env 0))
      with ["Siedler4"; "public"; "proj"; "home"].
    change (posixpath.join
              (posixpath.expanduser (import_env 0)
                 (nth 1 ["import-game-files.py"; "~/both"] "")) HD_ZIP)
      with "/home/me/both/settlers4-hd-assets.zip".
    destruct (extract_zip (import_env 0)
                "/home/me/both/settlers4-hd-assets.zip"
                ["Siedler4"; "public"; "proj"; "home"] fs1)
      as [fs2 [k|e]] eqn:Hhd; [reflexivity|].
    apply (f_equal snd) in Hhd. vm_compute in Hhd. discriminate Hhd.
  - cbn. lia.
  - reflexivity.
  - reflexivity.
  - transitivity
      (fs1, (extract_zip (import_env 0) "/home/me/both/settlers4-assets.zip"
               ["public"; "proj"; "home"] import_fs).2).
    + apply surjective_pairing.
    + apply (f_equal (pair fs1)). vm_compute. reflexivity.
Defined.

(** ** Where [main] writes *)

Lemma outside_untouched_refl dest fs : outside_untouched dest fs fs.
Proof. intros q _. by left. Qed.

Lemma outside_untouched_trans dest a b c :
  outside_untouched dest a b -> outside_untouched dest b c ->
  outside_untouched dest a c.
Proof.
  intros Hab Hbc q Hout.
  destruct (Hab q Hout) as [E1|(E1 & E1' & S1)],
           (Hbc q Hout) as [E2|(E2 & E2' & S2)].
  - left. congruence.
  - right. repeat split; try done. congruence.
  - right. repeat split; try done. congruence.
  - congruence.
Qed.

Lemma outside_untouched_below c dest a b :
  outside_untouched (c :: dest) a b -> outside_untouched dest a b.
Proof.
  intros H q Hout.
  destruct (H q) as [E|(E & E' & Hs)].
  - intros Hs. apply Hout. by apply suffix_cons_l in Hs.
  - by left.
  - right. repeat split; try done.
    destruct q as [|d q]; [apply suffix_nil|].
    apply suffix_cons_inv in Hs as [Hs|Hs]; [|done].
    inversion Hs; subst. destruct Hout. by apply suffix_cons_r.
Qed.

Lemma outside_untouched_extract_zip env zip_path dest fs :
  outside_untouched dest fs (extract_zip env zip_path dest fs).1.
Proof.
  destruct (ZipFile env zip_path fs) as [members|e] eqn:Hopen.
  - rewrite (extract_zip_spec _ _ _ _ _ Hopen).
    destruct (extract_members dest members fs) as [[fs' ts] r] eqn:Hrun.
    apply outside_untouched_members in Hrun. by destruct r as [[]|].
  - rewrite (extract_zip_raise_on_open _ _ _ _ _ Hopen).
    apply outside_untouched_refl.
Qed.

(** X9.  [main] writes below [public/] only.  Provided the indexer
    changes nothing outside that directory, a run of [main], however it
    ends, changes no file outside it; at most, missing directories above
    it are created. *)
Theorem main_stays_in_public env argv w :
  (forall fs,
     outside_untouched (PUBLIC_DIR env) fs
       (run_node env ("generate-file-list.js" :: SCRIPT_DIR env) fs).1) ->
  outside_untouched (PUBLIC_DIR env) (w_fs w) (w_fs (main env argv w).1).
Proof.
  intros Hnode.
  destruct (decide (length argv < 2)) as [Hlen|Hlen].
  { rewrite main_no_argument by done. apply outside_untouched_refl. }
  destruct (posixpath.isdir env
              (posixpath.expanduser env (nth 1 argv "")) (w_fs w)) eqn:Hdir.
  2:{ rewrite main_not_a_directory by (done || lia).
      apply outside_untouched_refl. }
  destruct (posixpath.isfile env
              (posixpath.join (posixpath.expanduser env (nth 1 argv ""))
                 MAIN_ZIP) (w_fs w)) eqn:Hfile.
  2:{ rewrite main_no_archive by (done || lia).
      apply outside_untouched_refl. }
  rewrite main_extracts by (done || lia).
  pose proof (outside_untouched_extract_zip env
                (posixpath.join (posixpath.expanduser env (nth 1 argv ""))
                   MAIN_ZIP) (PUBLIC_DIR env) (w_fs w)) as H1.
  destruct (extract_zip env _ (PUBLIC_DIR env) (w_fs w)) as [fs1 [n|e]];
    [|exact H1].
  cbn [fst] in H1. eapply outside_untouched_trans; [exact H1|].
  rewrite main_from_hd_spec. cbn [w_fs w_out w_calls].
  destruct (posixpath.isfile env _ fs1).
  - pose proof (outside_untouched_extract_zip env
                  (posixpath.join (posixpath.expanduser env (nth 1 argv ""))
                     HD_ZIP) (SIEDLER_DIR env) fs1) as H2.
    apply outside_untouched_below in H2.
    destruct (extract_zip env _ (SIEDLER_DIR env) fs1) as [fs2 [k|e]];
      [|exact H2].
    cbn [fst] in H2. eapply outside_untouched_trans; [exact H2|].
    rewrite main_verify_and_index_disk. apply Hnode.
  - rewrite main_verify_and_index_disk. apply Hnode.
Qed.

Lemma main_stays_in_public_witness :
  outside_untouched ["public"; "proj"; "home"] import_fs
    (w_fs (main (import_env 0) ["import-game-files.py"; "~/both"]
             (mkWorld import_fs [] [])).1).
Proof.
  apply (main_stays_in_public (import_env 0)
           ["import-game-files.py"; "~/both"] (mkWorld import_fs [] [])).
  intros fs. apply outside_untouched_refl.
Defined.

(** ** The indexer and the critical file *)

(** X10.  A failure of the indexer is fatal, after the extraction: when
    both extractions went through and the indexer reports a non-zero
    return code, [main] ends with status 1 and its last line is
    [Failed:] with the indexer's error output; an exception of the call
    itself ends [main] with that exception.  The disk is the one the
    indexer left. *)
Theorem main_indexer_failure env argv w fs1 n :
  let src_dir := posixpath.expanduser env (nth 1 argv "") in
  let main_zip := posixpath.join src_dir MAIN_ZIP in
  let hd_zip := posixpath.join src_dir HD_ZIP in
  let gen_script := "generate-file-list.js" :: SCRIPT_DIR env in
  let fs_in := if posixpath.isfile env hd_zip fs1
               then (extract_zip env hd_zip (SIEDLER_DIR env) fs1).1
               else fs1 in
  2 <= length argv ->
  posixpath.isdir env src_dir (w_fs w) = true ->
  posixpath.isfile env main_zip (w_fs w) = true ->
  extract_zip env main_zip (PUBLIC_DIR env) (w_fs w) = (fs1, Ok n) ->
  (posixpath.isfile env hd_zip fs1 = true ->
   exists m, (extract_zip env hd_zip (SIEDLER_DIR env) fs1).2 = Ok m) ->
  (forall fs2 proc,
     run_node env gen_script fs_in = (fs2, Ok proc) ->
     returncode proc <> 0%Z ->
     (main env argv w).2 = Raise (SystemExit 1) /\
     exit_status (main env argv w).2 = 1%Z /\
     last (w_out (main env argv w).1)
     = Some ("  Failed: " +:+ strip env (proc_stderr proc)) /\
     w_fs (main env argv w).1 = fs2) /\
  (forall fs2 e,
     run_node env gen_script fs_in = (fs2, Raise e) ->
     (main env argv w).2 = Raise e /\ w_fs (main env argv w).1 = fs2).
Proof.
  intros src_dir main_zip hd_zip gen_script fs_in Hlen Hdir Hfile Hrun Hhd.
  destruct (main_reaches_index env argv w fs1 n Hlen Hdir Hfile Hrun Hhd)
    as (out & calls & ->).
  fold src_dir hd_zip fs_in. rewrite main_verify_and_index_spec.
  cbn zeta. cbn [w_fs w_out w_calls]. fold gen_script. split.
  - intros fs2 proc -> Hcode.
    apply Z.eqb_neq in Hcode. rewrite Hcode. cbn [fst snd w_fs w_out].
    repeat split; try done. by rewrite last_snoc.
  - by intros fs2 e ->.
Qed.

Lemma main_indexer_failure_witness :
  (main (import_env 1) ["import-game-files.py"; "~/only"]
     (mkWorld import_fs [] [])).2 = Raise (SystemExit 1) /\
  last (w_out (main (import_env 1) ["import-game-files.py"; "~/only"]
                 (mkWorld import_fs [] [])).1)
  = Some "  Failed: no node".
Proof.
  pose (fs1 := (extract_zip (import_env 1)
                  "/home/me/only/settlers4-assets.zip"
                  ["public"; "proj"; "home"] import_fs).1).
  assert (posixpath.isfile (import_env 1)
            "/home/me/only/settlers4-hd-assets.zip" fs1 = false) as Hno
    by (vm_compute; reflexivity).
  destruct (main_indexer_failure (import_env 1)
              ["import-game-files.py"; "~/only"] (mkWorld import_fs [] [])
              fs1 3) as [Hfail _].
  - cbn. lia.
  - reflexivity.
  - reflexivity.
  - transitivity
      (fs1, (extract_zip (import_env 1) "/home/me/only/settlers4-assets.zip"
               ["public"; "proj"; "home"] import_fs).2).
    + apply surjective_pairing.
    + apply (f_equal (pair fs1)). vm_compute. reflexivity.
  - intros Hyes.
    change (posixpath.isfile (import_env 1)
              "/home/me/only/settlers4-hd-assets.zip" fs1 = true) in Hyes.
    rewrite Hno in Hyes. discriminate Hyes.
  - destruct (Hfail fs1 (mkCompletedProcess 1 "3 files" "no node"))
      as (Hr & _ & Hlast & _).
    + change (posixpath.isfile (import_env 1)
                (posixpath.join
                   (posixpath.expanduser (import_env 1)
                      (nth 1 ["import-game-files.py"; "~/only"] ""))
                   HD_ZIP) fs1)
        with (posixpath.isfile (import_env 1)
                "/home/me/only/settlers4-hd-assets.zip" fs1).
      rewrite Hno. reflexivity.
    + discriminate.
    + split; [exact Hr|exact Hlast].
Defined.

Lemma main_verify_and_index_verdict env w :
  (if os.isfile ("2.gh6" :: "Gfx" :: SIEDLER_DIR env) (w_fs w)
   then nl +:+ "  [OK] Landscape texture (Gfx/2.gh6) found"
   else nl +:+ "  [!!] Gfx/2.gh6 missing - map rendering will fail")
  ∈ w_out (main_verify_and_index env w).1.
Proof.
  rewrite main_verify_and_index_spec. cbn zeta.
  destruct (run_node env _ (w_fs w)) as [fs2 [proc|e]];
    [destruct (returncode proc =? 0)%Z|]; cbn [fst w_out];
    rewrite <- ?app_assoc; apply elem_of_app; right; by left.
Qed.

Lemma main_verify_and_index_result env w :
  (main_verify_and_index env w).2 =
  match (run_node env ("generate-file-list.js" :: SCRIPT_DIR env)
           (w_fs w)).2 with
  | Raise e => Raise e
  | Ok proc =>
      if (returncode proc =? 0)%Z then Ok tt else Raise (SystemExit 1)
  end.
Proof.
  rewrite main_verify_and_index_spec. cbn zeta.
  destruct (run_node env _ (w_fs w)) as [fs2 [proc|e]]; cbn [snd];
    [|reflexivity].
  destruct (returncode proc =? 0)%Z; reflexivity.
Qed.

Lemma extract_zip_wf env zip_path dest fs :
  wf fs -> wf (extract_zip env zip_path dest fs).1.
Proof.
  intros Hwf. destruct (ZipFile env zip_path fs) as [members|e] eqn:Hopen.
  - rewrite (extract_zip_spec _ _ _ _ _ Hopen).
    destruct (extract_members dest members fs) as [[fs' ts] r] eqn:Hrun.
    apply extract_members_wf in Hrun; [|done]. by destruct r as [[]|].
  - by rewrite (extract_zip_raise_on_open _ _ _ _ _ Hopen).
Qed.

Lemma extract_zip_kind_le env zip_path dest fs :
  kind_le fs (extract_zip env zip_path dest fs).1.
Proof.
  destruct (ZipFile env zip_path fs) as [members|e] eqn:Hopen.
  - rewrite (extract_zip_spec _ _ _ _ _ Hopen).
    destruct (extract_members dest members fs) as [[fs' ts] r] eqn:Hrun.
    apply extract_members_kind_le in Hrun. by destruct r as [[]|].
  - rewrite (extract_zip_raise_on_open _ _ _ _ _ Hopen). apply kind_le_refl.
Qed.

Lemma extract_zip_materialized env zip_path dest fs members n info :
  wf fs -> ZipFile env zip_path fs = Ok members ->
  (extract_zip env zip_path dest fs).2 = Ok n -> info ∈ members ->
  materialized dest info (extract_zip env zip_path dest fs).1.
Proof.
  intros Hwf Hopen. rewrite (extract_zip_spec _ _ _ _ _ Hopen).
  destruct (extract_members dest members fs) as [[fs' ts] [[]|e]] eqn:Hrun;
    [|done]. intros _ Hin. cbn [fst].
  apply settled_materialized. by eapply extract_members_settled.
Qed.

(** A plain-file member is a file at its target once it is in place. *)
Lemma materialized_isfile dest info fs :
  materialized dest info fs ->
  endswith slash (replace backslash slash (filename info)) = false ->
  arcname_parts (replace backslash slash (filename info)) <> [] ->
  os.isfile (target_of dest info) fs = true.
Proof.
  unfold materialized, target_of, targetpath, os.isfile.
  intros [_ Hkind] Hend Hparts. rewrite Hend in Hkind.
  destruct Hkind as [d Hd].
  destruct (rev (arcname_parts (replace backslash slash (filename info))))
    as [|c k] eqn:Hrev.
  - apply (f_equal (@rev string)) in Hrev. rewrite rev_involutive in Hrev.
    done.
  - cbn in *. by rewrite Hd.
Qed.

Lemma kind_le_isfile fs fs' q :
  kind_le fs fs' -> os.isfile q fs = true -> os.isfile q fs' = true.
Proof.
  unfold os.isfile. destruct q as [|c q]; [done|]. cbn. intros Hle.
  destruct (fs !! (c :: q)) as [[d|]|] eqn:Hq; try done. intros _.
  destruct (proj2 (Hle (c :: q)) d Hq) as [d' ->]. done.
Qed.

(** X11.  A missing critical file is a warning, not an error.  After
    the extractions [main] prints the [OK] line when [Gfx/2.gh6] is a
    file under [public/Siedler4] and the [!!] line otherwise, runs the
    indexer in both cases, and ends as the indexer decides. *)
Theorem main_critical_file_is_a_warning env argv w fs1 n :
  let src_dir := posixpath.expanduser env (nth 1 argv "") in
  let main_zip := posixpath.join src_dir MAIN_ZIP in
  let hd_zip := posixpath.join src_dir HD_ZIP in
  let gen_script := "generate-file-list.js" :: SCRIPT_DIR env in
  let fs_in := if posixpath.isfile env hd_zip fs1
               then (extract_zip env hd_zip (SIEDLER_DIR env) fs1).1
               else fs1 in
  2 <= length argv ->
  posixpath.isdir env src_dir (w_fs w) = true ->
  posixpath.isfile env main_zip (w_fs w) = true ->
  extract_zip env main_zip (PUBLIC_DIR env) (w_fs w) = (fs1, Ok n) ->
  (posixpath.isfile env hd_zip fs1 = true ->
   exists m, (extract_zip env hd_zip (SIEDLER_DIR env) fs1).2 = Ok m) ->
  (if os.isfile ("2.gh6" :: "Gfx" :: SIEDLER_DIR env) fs_in
   then nl +:+ "  [OK] Landscape texture (Gfx/2.gh6) found"
   else nl +:+ "  [!!] Gfx/2.gh6 missing - map rendering will fail")
  ∈ w_out (main env argv w).1 /\
  (main env argv w).2 =
  match (run_node env gen_script fs_in).2 with
  | Raise e => Raise e
  | Ok proc =>
      if (returncode proc =? 0)%Z then Ok tt else Raise (SystemExit 1)
  end.
Proof.
  intros src_dir main_zip hd_zip gen_script fs_in Hlen Hdir Hfile Hrun Hhd.
  destruct (main_reaches_index env argv w fs1 n Hlen Hdir Hfile Hrun Hhd)
    as (out & calls & ->).
  fold src_dir hd_zip fs_in. split.
  - apply (main_verify_and_index_verdict env (mkWorld fs_in out calls)).
  - apply (main_verify_and_index_result env (mkWorld fs_in out calls)).
Qed.

Lemma main_critical_file_is_a_warning_witness :
  (nl +:+ "  [!!] Gfx/2.gh6 missing - map rendering will fail")
  ∈ w_out (main demo_env ["import-game-files.py"; "~/zips"]
             (mkWorld demo_fs [] [])).1 /\
  (main demo_env ["import-game-files.py"; "~/zips"]
     (mkWorld demo_fs [] [])).2 = Ok tt.
Proof.
  pose (fs1 := (extract_zip demo_env "/home/me/zips/settlers4-assets.zip"
                  ["public"; "proj"; "home"] demo_fs).1).
  assert (posixpath.isfile demo_env
            "/home/me/zips/settlers4-hd-assets.zip" fs1 = false) as Hno
    by (vm_compute; reflexivity).
  assert (os.isfile ["2.gh6"; "Gfx"; "Siedler4"; "public"; "proj"; "home"]
            fs1 = false) as Hgh6 by (vm_compute; reflexivity).
  destruct (main_critical_file_is_a_warning demo_env
              ["import-game-files.py"; "~/zips"] (mkWorld demo_fs [] [])
              fs1 5) as [Hline Hres].
  - cbn. lia.
  - reflexivity.
  - reflexivity.
  - transitivity
      (fs1, (extract_zip demo_env "/home/me/zips/settlers4-assets.zip"
               ["public"; "proj"; "home"] demo_fs).2).
    + apply surjective_pairing.
    + apply (f_equal (pair fs1)). vm_compute. reflexivity.
  - intros Hyes.
    change (posixpath.isfile demo_env
              "/home/me/zips/settlers4-hd-assets.zip" fs1 = true) in Hyes.
    rewrite Hno in Hyes. discriminate Hyes.
  - change (posixpath.isfile demo_env
              (posixpath.join
                 (posixpath.expanduser demo_env
                    (nth 1 ["import-game-files.py"; "~/zips"] "")) HD_ZIP)
              fs1)
      with (posixpath.isfile demo_env
              "/home/me/zips/settlers4-hd-assets.zip" fs1) in Hline, Hres.
    rewrite Hno in Hline, Hres.
    change (SIEDLER_DIR demo_env)
      with ["Siedler4"; "public"; "proj"; "home"] in Hline.
    rewrite Hgh6 in Hline. split; [exact Hline|exact Hres].
Defined.

(** X12.  An archive that holds the critical file passes the check.
    When the first archive has a plain-file member whose repaired name
    has the components [Siedler4], [Gfx], [2.gh6], or the second archive
    one with the components [Gfx], [2.gh6], and the extractions go
    through on a well-formed disk, [main] prints the [OK] line. *)
Theorem main_finds_landscape_texture env argv w fs1 n members info :
  let src_dir := posixpath.expanduser env (nth 1 argv "") in
  let main_zip := posixpath.join src_dir MAIN_ZIP in
  let hd_zip := posixpath.join src_dir HD_ZIP in
  let name := replace backslash slash (filename info) in
  2 <= length argv ->
  posixpath.isdir env src_dir (w_fs w) = true ->
  posixpath.isfile env main_zip (w_fs w) = true ->
  extract_zip env main_zip (PUBLIC_DIR env) (w_fs w) = (fs1, Ok n) ->
  (posixpath.isfile env hd_zip fs1 = true ->
   exists m, (extract_zip env hd_zip (SIEDLER_DIR env) fs1).2 = Ok m) ->
  wf (w_fs w) ->
  info ∈ members ->
  endswith slash name = false ->
  (ZipFile env main_zip (w_fs w) = Ok members /\
   arcname_parts name = ["Siedler4"; "Gfx"; "2.gh6"] \/
   posixpath.isfile env hd_zip fs1 = true /\
   ZipFile env hd_zip fs1 = Ok members /\
   arcname_parts name = ["Gfx"; "2.gh6"]) ->
  (nl +:+ "  [OK] Landscape texture (Gfx/2.gh6) found")
  ∈ w_out (main env argv w).1.
Proof.
  intros src_dir main_zip hd_zip name Hlen Hdir Hfile Hrun Hhd Hwf Hin Hend
    Hfrom.
  destruct (main_reaches_index env argv w fs1 n Hlen Hdir Hfile Hrun Hhd)
    as (out & calls & ->).
  fold src_dir hd_zip.
  set (fs_in := if posixpath.isfile env hd_zip fs1
                then (extract_zip env hd_zip (SIEDLER_DIR env) fs1).1
                else fs1).
  pose proof (main_verify_and_index_verdict env (mkWorld fs_in out calls))
    as Hline. cbn [w_fs] in Hline.
  assert (os.isfile ("2.gh6" :: "Gfx" :: SIEDLER_DIR env) fs_in = true)
    as Hgh6; [|by rewrite Hgh6 in Hline].
  assert (fs1 = (extract_zip env main_zip (PUBLIC_DIR env) (w_fs w)).1)
    as Hfs1 by (by rewrite Hrun).
  assert (wf fs1) as Hwf1 by (rewrite Hfs1; by apply extract_zip_wf).
  destruct Hfrom as [[Hopen Hparts]|(Hyes & Hopen & Hparts)].
  - assert (os.isfile ("2.gh6" :: "Gfx" :: SIEDLER_DIR env) fs1 = true)
      as Hone.
    { pose proof (extract_zip_materialized env main_zip (PUBLIC_DIR env)
                    (w_fs w) members n info Hwf Hopen) as Hmat.
      rewrite Hrun in Hmat. specialize (Hmat eq_refl Hin).
      apply materialized_isfile in Hmat; [|done|by fold name; rewrite Hparts].
      unfold target_of, targetpath in Hmat. fold name in Hmat.
      by rewrite Hparts in Hmat. }
    subst fs_in. destruct (posixpath.isfile env hd_zip fs1); [|done].
    eapply kind_le_isfile; [apply extract_zip_kind_le|done].
  - subst fs_in. rewrite Hyes. destruct (Hhd Hyes) as [m Hm].
    pose proof (extract_zip_materialized env hd_zip (SIEDLER_DIR env)
                  fs1 members m info Hwf1 Hopen Hm Hin) as Hmat.
    apply materialized_isfile in Hmat; [|done|by fold name; rewrite Hparts].
    unfold target_of, targetpath in Hmat. fold name in Hmat.
    by rewrite Hparts in Hmat.
Qed.

Lemma main_finds_landscape_texture_witness :
  (nl +:+ "  [OK] Landscape texture (Gfx/2.gh6) found")
  ∈ w_out (main (import_env 0) ["import-game-files.py"; "~/only"]
             (mkWorld import_fs [] [])).1.
Proof.
  pose (fs1 := (extract_zip (import_env 0)
                  "/home/me/only/settlers4-assets.zip"
                  ["public"; "proj"; "home"] import_fs).1).
  apply (main_finds_landscape_texture (import_env 0)
           ["import-game-files.py"; "~/only"] (mkWorld import_fs [] [])
           fs1 3 main_members (member "Siedler4\Gfx\2.gh6" "texture")).
  - cbn. lia.
  - reflexivity.
  - reflexivity.
  - transitivity
      (fs1, (extract_zip (import_env 0) "/home/me/only/settlers4-assets.zip"
               ["public"; "proj"; "home"] import_fs).2).
    + apply surjective_pairing.
    + apply (f_equal (pair fs1)). vm_compute. reflexivity.
  - intros Hyes. vm_compute in Hyes. discriminate Hyes.
  - apply wf_check_sound. vm_compute. reflexivity.
  - by left.
  - reflexivity.
  - left. split; reflexivity.
Defined.

(** ** The stored convention does not matter *)

Lemma extract_same_name member1 member2 dest fs :
  filename member1 = filename member2 -> data member1 = data member2 ->
  extract member1 dest fs = extract member2 dest fs.
Proof.
  intros Hname Hdata. rewrite !extract_unfold. unfold is_dir.
  by rewrite Hname, Hdata.
Qed.

Lemma extract_members_same_names dest members1 members2 :
  Forall2 (fun a b =>
             replace backslash slash (filename a)
             = replace backslash slash (filename b) /\
             data a = data b) members1 members2 ->
  forall fs,
    extract_members dest members1 fs = extract_members dest members2 fs.
Proof.
  induction 1 as [|a b l1 l2 [Hname Hdata] _ IH]; intros fs; [done|].
  rewrite !extract_members_cons.
  rewrite (extract_same_name (fix_separators a) (fix_separators b))
    by done.
  destruct (extract (fix_separators b) dest fs) as [fs1 [t|e]]; [|done].
  by rewrite IH.
Qed.

(** X13.  An archive written with backslashes extracts exactly like the
    same archive written with forward slashes: two archives whose
    members, in order, have the same content and the same names up to
    the separator give the same disk and the same result. *)
Theorem separator_convention_is_irrelevant
    env zip_path1 zip_path2 dest fs members1 members2 :
  ZipFile env zip_path1 fs = Ok members1 ->
  ZipFile env zip_path2 fs = Ok members2 ->
  Forall2 (fun a b =>
             replace backslash slash (filename a)
             = replace backslash slash (filename b) /\
             data a = data b) members1 members2 ->
  extract_zip env zip_path1 dest fs = extract_zip env zip_path2 dest fs.
Proof.
  intros Hopen1 Hopen2 Hsame.
  rewrite (extract_zip_spec _ _ _ _ _ Hopen1).
  rewrite (extract_zip_spec _ _ _ _ _ Hopen2).
  rewrite (extract_members_same_names dest _ _ Hsame fs).
  by rewrite (Forall2_length _ _ _ Hsame).
Qed.

Lemma separator_convention_is_irrelevant_witness :
  extract_zip convention_env "windows.zip" demo_dest convention_fs
  = extract_zip convention_env "posix.zip" demo_dest convention_fs.
Proof.
  apply (separator_convention_is_irrelevant convention_env "windows.zip"
           "posix.zip" demo_dest convention_fs windows_members
           posix_members).
  - reflexivity.
  - reflexivity.
  - repeat constructor.
Defined.
